(** * F1-python: telemetry timeline and playback engine, shallow embedding

    Floats of the Python code are modelled as exact rationals [Q] (NaN is
    left out: every time, distance and coordinate here is a number).
    Python lists and numpy arrays are Rocq lists; pandas frames are lists
    of row records. *)

From Stdlib Require Import String Ascii.
From Stdlib Require Import ZArith QArith Qminmax Qround Lqa Lia List Sorting
  Permutation Bool.
Import ListNotations.



(* ------------------------------------------------------------------ *)
(** ** Generic helpers *)

Definition Qltb (a b : Q) : bool := negb (Qle_bool b a).

(** Python [l[i] = x] on an in-range index. *)
Fixpoint upd {A} (l : list A) (i : nat) (x : A) : list A :=
  match l, i with
  | [], _ => []
  | _ :: t, O => x :: t
  | h :: t, S i' => h :: upd t i' x
  end.

(** pandas [Series.min()] / [np.nanmin] on a non-empty column; [None] for
    an empty one. *)
Definition list_min (l : list Q) : option Q :=
  match l with
  | [] => None
  | x :: xs => Some (fold_left Qmin xs x)
  end.

Definition list_max (l : list Q) : option Q :=
  match l with
  | [] => None
  | x :: xs => Some (fold_left Qmax xs x)
  end.

(** Python's [sorted] (Timsort) is stable, and the output of a stable
    sort is unique, so a stable insertion sort computes exactly what
    [sorted] returns. [before a b] holds when [a] must come first. *)
Section StableSort.
Context {A : Type} (before : A -> A -> bool).

Fixpoint ins (x : A) (l : list A) : list A :=
  match l with
  | [] => [x]
  | y :: ys => if before x y then x :: y :: ys else y :: ins x ys
  end.

Definition stable_sort (l : list A) : list A :=
  fold_left (fun acc x => ins x acc) l [].
End StableSort.

(** [sorted(l, key=key, reverse=reverse)]. *)
Definition py_sorted {A} (key : A -> Q) (reverse : bool) (l : list A) : list A :=
  stable_sort (fun a b => if reverse then Qltb (key b) (key a)
                          else Qltb (key a) (key b)) l.

(** A sort is stable from [input] to [output] when, for every key value,
    the entries carrying that key appear in the same relative order. *)
Definition stable_by {A} (key : A -> Q) (input output : list A) : Prop :=
  forall k, filter (fun x => Qeq_bool (key x) k) output
            = filter (fun x => Qeq_bool (key x) k) input.

(* ------------------------------------------------------------------ *)
(** ** numpy's argsort, kind='quicksort' (portable path)

    [DataFrame.sort_values('time')] calls [nargsort(kind='quicksort')],
    i.e. [ndarray.argsort(kind='quicksort')] on the time column.  The
    definitions below follow numpy's generic [aquicksort_] (median of
    three, Hoare partition, insertion sort below 17 elements, heapsort
    past the depth limit), the path taken when no SIMD argsort is
    dispatched.  [v] holds the keys, [a] the index array [tosort]. *)
Module NpSort.
Local Open Scope nat_scope.

Definition get (a : list nat) (i : nat) : nat := nth i a O.
Definition val (v : list Q) (a : list nat) (i : nat) : Q := nth (get a i) v 0%Q.
Definition less (x y : Q) : bool := Qltb x y.
Definition swap (a : list nat) (i j : nat) : list nat :=
  upd (upd a i (get a j)) j (get a i).

(* do { ++pi; } while (less(v[*pi], vp)); *)
Fixpoint scan_up (fuel : nat) v a vp (pi : nat) : nat :=
  match fuel with
  | O => pi
  | S f => let pi' := S pi in
           if less (val v a pi') vp then scan_up f v a vp pi' else pi'
  end.

(* do { --pj; } while (less(vp, v[*pj])); *)
Fixpoint scan_down (fuel : nat) v a vp (pj : nat) : nat :=
  match fuel with
  | O => pj
  | S f => let pj' := pred pj in
           if less vp (val v a pj') then scan_down f v a vp pj' else pj'
  end.

Fixpoint part_loop (fuel : nat) v a vp (pi pj : nat) : list nat * nat :=
  match fuel with
  | O => (a, pi)
  | S f =>
      let pi' := scan_up (length a) v a vp pi in
      let pj' := scan_down (length a) v a vp pj in
      if pj' <=? pi' then (a, pi')
      else part_loop f v (swap a pi' pj') vp pi' pj'
  end.

Definition partition (v : list Q) (a : list nat) (pl pr : nat) : list nat * nat :=
  let pm := pl + (pr - pl) / 2 in
  let a := if less (val v a pm) (val v a pl) then swap a pm pl else a in
  let a := if less (val v a pr) (val v a pm) then swap a pr pm else a in
  let a := if less (val v a pm) (val v a pl) then swap a pm pl else a in
  let vp := val v a pm in
  let pj := pr - 1 in
  let a := swap a pm pj in
  let '(a, pi) := part_loop (length a) v a vp pl pj in
  (swap a pi (pr - 1), pi).

(* while (pj > pl && less(vp, v[*pk])) { *pj-- = *pk--; } *)
Fixpoint ins_shift (fuel : nat) v a vp (pl pj : nat) : list nat * nat :=
  match fuel with
  | O => (a, pj)
  | S f =>
      if (pl <? pj) && less vp (val v a (pj - 1))
      then ins_shift f v (upd a pj (get a (pj - 1))) vp pl (pj - 1)
      else (a, pj)
  end.

Fixpoint insertion_pass (fuel : nat) v a (pl pi pr : nat) : list nat :=
  match fuel with
  | O => a
  | S f =>
      if pr <? pi then a
      else let vi := get a pi in
           let '(a', pj) := ins_shift (length a) v a (nth vi v 0%Q) pl pi in
           insertion_pass f v (upd a' pj vi) pl (S pi) pr
  end.

Definition insertion (v : list Q) (a : list nat) (pl pr : nat) : list nat :=
  insertion_pass (length a) v a pl (S pl) pr.

(* heapsort on tosort[base .. base+n-1], addressed 1-based as in numpy *)
Definition get1 a base k := get a (base + k - 1).
Definition set1 (a : list nat) base k x := upd a (base + k - 1) x.

Fixpoint sift (fuel : nat) v a base (tmp i j n : nat) : list nat :=
  match fuel with
  | O => set1 a base i tmp
  | S f =>
      if n <? j then set1 a base i tmp
      else
        let j := if (j <? n) && less (nth (get1 a base j) v 0%Q)
                                     (nth (get1 a base (j + 1)) v 0%Q)
                 then j + 1 else j in
        if less (nth tmp v 0%Q) (nth (get1 a base j) v 0%Q)
        then sift f v (set1 a base i (get1 a base j)) base tmp j (j + j) n
        else set1 a base i tmp
  end.

Fixpoint heapify (fuel : nat) v a base (l n : nat) : list nat :=
  match fuel with
  | O => a
  | S f =>
      if l =? 0 then a
      else heapify f v (sift (length a) v a base (get1 a base l) l (2 * l) n)
                   base (l - 1) n
  end.

Fixpoint extract (fuel : nat) v a base (n : nat) : list nat :=
  match fuel with
  | O => a
  | S f =>
      if n <=? 1 then a
      else let tmp := get1 a base n in
           let a := set1 a base n (get1 a base 1) in
           extract f v (sift (length a) v a base tmp 1 2 (n - 1)) base (n - 1)
  end.

Definition aheapsort (v : list Q) (a : list nat) (base n : nat) : list nat :=
  extract (length a) v (heapify (length a) v a base (n / 2) n) base n.

(** The quicksort loop.  [top] marks a range popped from the stack (the
    depth check is made there only); the smaller side of a partition
    is processed first, the larger one is popped later. *)
Fixpoint qs (fuel : nat) v a (top : bool) (pl pr : nat) (cdepth : Z) : list nat :=
  match fuel with
  | O => a
  | S f =>
      if top && (cdepth <? 0)%Z then aheapsort v a pl (S pr - pl)
      else if 16 <? pr - pl then
        let '(a, pi) := partition v a pl pr in
        let cd := (cdepth - 1)%Z in
        if pi - pl <? pr - pi
        then qs f v (qs f v a false pl (pi - 1) cd) true (S pi) pr cd
        else qs f v (qs f v a false (S pi) pr cd) true pl (pi - 1) cd
      else insertion v a pl pr
  end.

(** npy_get_msb *)
Definition msb (n : nat) : nat := Nat.log2 n.

Definition argsort (v : list Q) : list nat :=
  let n := length v in
  qs (S n) v (seq 0 n) true 0 (n - 1) (Z.of_nat (2 * msb n)).

End NpSort.

(* ------------------------------------------------------------------ *)
(** ** Timeline Builder: [collect_session_telemetry] (telemetry.py) *)

(** One telemetry row of [lap.get_telemetry()]; [row_time] is the value
    [get_telemetry_time_seconds] yields for it. *)
Record tel_row := {
  row_X : option Q;
  row_Y : option Q;
  row_Distance : Q;
  row_time : Q
}.

Record telemetry := {
  tel_rows : list tel_row;
  tel_has_XY : bool;        (* 'X' and 'Y' in tel.columns *)
  tel_has_Distance : bool;  (* 'Distance' in tel.columns *)
  tel_time_ok : bool        (* get_telemetry_time_seconds(tel) is not None *)
}.

(** One row of [session.laps]; [lap_telemetry] is [None] when
    [lap.get_telemetry()] raises. *)
Record lap_row := {
  lap_Driver : string;
  lap_LapNumber : option Z;
  lap_telemetry : option telemetry
}.

(** [session.laps], [None] when it is [None]. *)
Record session := { laps : option (list lap_row) }.

(** A row of the built frame: columns driver, time, x, y, lap, distance. *)
Record sample := {
  s_driver : string;
  s_time : Q;
  s_x : Q;
  s_y : Q;
  s_lap : Z;
  s_distance : Q
}.

(** [laps['Driver'].unique()]: first-appearance order. *)
Definition unique (l : list string) : list string :=
  fold_left (fun acc d => if existsb (String.eqb d) acc then acc else acc ++ [d])
            l [].

Definition opt_or {A} (o : option A) (d : A) : A :=
  match o with Some v => v | None => d end.

Definition xy_valid (r : tel_row) : bool :=
  match row_X r, row_Y r with Some _, Some _ => true | _, _ => false end.

(** The body of the loop over one lap: [None] for every [continue],
    otherwise the rows of the lap's DataFrame. *)
Definition lap_frame (drv : string) (lp : lap_row) : option (list sample) :=
  match lap_telemetry lp with
  | None => None
  | Some tel =>
      match tel_rows tel with
      | [] => None
      | _ =>
          if negb (tel_has_XY tel) then None
          else if negb (tel_time_ok tel) then None
          else
            let kept := filter xy_valid (tel_rows tel) in
            match kept with
            | [] => None
            | _ =>
                let ts := map row_time kept in
                let lap_num := opt_or (lap_LapNumber lp) 0%Z in
                let lap_start := opt_or (list_min ts) 0 in
                Some (map (fun r =>
                  {| s_driver := drv;
                     s_time := row_time r;
                     s_x := opt_or (row_X r) 0;
                     s_y := opt_or (row_Y r) 0;
                     s_lap := lap_num;
                     s_distance := if tel_has_Distance tel then row_Distance r
                                   else row_time r - lap_start |}) kept)
            end
      end
  end.

Fixpoint filter_some {A} (l : list (option A)) : list A :=
  match l with
  | [] => []
  | Some a :: t => a :: filter_some t
  | None :: t => filter_some t
  end.

(** [rows]: the per-lap frames, driver by driver ([laps.pick_drivers]). *)
Definition collect_rows (ls : list lap_row) : list (list sample) :=
  flat_map (fun drv =>
              filter_some (map (lap_frame drv)
                               (filter (fun lp => String.eqb (lap_Driver lp) drv) ls)))
           (unique (map lap_Driver ls)).

Definition shift_time (gm : Q) (s : sample) : sample :=
  {| s_driver := s_driver s; s_time := s_time s - gm; s_x := s_x s;
     s_y := s_y s; s_lap := s_lap s; s_distance := s_distance s |}.

(** [full['time'] = full['time'] - full['time'].min()] *)
Definition normalize_time (full : list sample) : list sample :=
  let global_min := opt_or (list_min (map s_time full)) 0 in
  map (shift_time global_min) full.

Section Builder.
(** [DataFrame.sort_values('time')]: the library sort. *)
Variable sort_values : list sample -> list sample.

Definition collect_session_telemetry (sess : session) : option (list sample) :=
  match laps sess with
  | None | Some [] => None
  | Some ls =>
      match collect_rows ls with
      | [] => None
      | rows => Some (sort_values (normalize_time (concat rows)))
      end
  end.
End Builder.

(** pandas' [sort_values('time')] on numpy's argsort (kind='quicksort'):
    the rows taken in the order of the indexer. *)
Definition default_sample : sample :=
  {| s_driver := ""; s_time := 0; s_x := 0; s_y := 0; s_lap := 0%Z; s_distance := 0 |}.

Definition np_sort_values (full : list sample) : list sample :=
  map (fun i => nth i full default_sample) (NpSort.argsort (map s_time full)).

(** [sort_values('time', kind='stable')] and Python's [sorted]. *)
Definition stable_sort_values (full : list sample) : list sample :=
  py_sorted s_time false full.

(** [F1Selector.load_data] after the session is loaded. *)
Inductive load_outcome :=
  | Load_error (msg : string)
  | Finish_loading (timeline : list sample).

Definition load_data (sort_values : list sample -> list sample) (sess : session)
  : load_outcome :=
  match collect_session_telemetry sort_values sess with
  | None => Load_error "No telemetry data found"
  | Some tl => Finish_loading tl
  end.

(* ------------------------------------------------------------------ *)
(** ** Formatting helpers (helpers.py and f-strings) *)

Fixpoint digits_rev (fuel : nat) (n : Z) : list ascii :=
  match fuel with
  | O => []
  | S f => ascii_of_nat (48 + Z.to_nat (n mod 10))
             :: (if (n / 10 =? 0)%Z then [] else digits_rev f (n / 10))
  end.

(** [str(n)] / [f"{n}"] for a Python int. *)
Definition Z_to_string (n : Z) : string :=
  (if (n <? 0)%Z then "-" else "")
    ++ string_of_list_ascii (rev (digits_rev (S (Pos.size_nat (Z.to_pos (Z.abs n)))) (Z.abs n))).

Definition pad_left (c : ascii) (w : nat) (s : string) : string :=
  string_of_list_ascii (repeat c (w - String.length s)) ++ s.

(** Exact decimal rounding of [format]: nearest, ties to even. *)
Definition round_half_even (q : Q) : Z :=
  let fl := Qfloor q in
  let r := q - inject_Z fl in
  if Qltb r (1 # 2) then fl
  else if Qltb (1 # 2) r then (fl + 1)%Z
  else if Z.even fl then fl else (fl + 1)%Z.

(** [f"{seconds:06.3f}"] for a non-negative value. *)
Definition fmt_06_3f (q : Q) : string :=
  let n := round_half_even (q * 1000) in
  pad_left "0"%char 6
    (Z_to_string (n / 1000) ++ "." ++ pad_left "0"%char 3 (Z_to_string (n mod 1000))).

(** [fmt_time]: seconds -> M:SS.mmm, negatives clamped to 0. *)
Definition fmt_time (s : Q) : string :=
  let ss := if Qltb s 0 then 0 else s in
  let minutes := Qfloor (ss / 60) in
  let seconds := ss - 60 * inject_Z minutes in
  Z_to_string minutes ++ ":" ++ fmt_06_3f seconds.

(* ------------------------------------------------------------------ *)
(** ** Per-driver sample index and snapshot engine (viewer.py) *)

(** numpy [searchsorted(arr, key, side='right')] for one key: [binsearch]
    with the comparison [mid_val <= key]. *)
Fixpoint bsearch_right (fuel : nat) (arr : list Q) (key : Q) (lo hi : nat) : nat :=
  match fuel with
  | O => lo
  | S f =>
      if (lo <? hi)%nat then
        let mid := (lo + (hi - lo) / 2)%nat in
        if Qle_bool (nth mid arr 0) key then bsearch_right f arr key (S mid) hi
        else bsearch_right f arr key lo mid
      else lo
  end.

Definition searchsorted_right (arr : list Q) (key : Q) : nat :=
  bsearch_right (List.length arr) arr key 0 (List.length arr).

(** [idx = np.searchsorted(t_arr, sim_time, side='right') - 1] with its
    two corrections. *)
Definition snapshot_index (t_arr : list Q) (sim_time : Q) : Z :=
  let n := Z.of_nat (List.length t_arr) in
  let idx := (Z.of_nat (searchsorted_right t_arr sim_time) - 1)%Z in
  if (idx <? 0)%Z then 0%Z
  else if (n <=? idx)%Z then (n - 1)%Z
  else idx.

Record stats := {
  st_time : Q;
  st_lap : Z;
  st_distance : Q;
  st_progress : Q
}.

(** [lap_distance_margin = max(1000.0, max_dist + 100.0)]. *)
Definition lap_distance_margin (tl : list sample) : Q :=
  let max_dist := opt_or (list_max (map s_distance tl)) 0 in
  Qmax 1000 (max_dist + 100).

Definition progress_score (margin : Q) (lap : Z) (dist : Q) : Q :=
  inject_Z lap * margin + dist.

(** [driver_stats[drv]] built from the row at the resolved index. *)
Definition stats_of (margin : Q) (s : sample) : stats :=
  {| st_time := s_time s; st_lap := s_lap s; st_distance := s_distance s;
     st_progress := progress_score margin (s_lap s) (s_distance s) |}.

Section Viewer.
(** [sort_values('time')] again, for each driver's rows. *)
Variable sort_values : list sample -> list sample.

(** [driver_data[drv]]: the driver's rows sorted by time. *)
Definition driver_track (tl : list sample) (drv : string) : list sample :=
  sort_values (filter (fun s => String.eqb (s_driver s) drv) tl).

Definition drivers_of (tl : list sample) : list string :=
  unique (map s_driver tl).

(** One iteration of the snapshot loop; [None] for a driver with no
    telemetry ([drivers_no_telemetry]). *)
Definition snapshot (trk : list sample) (margin sim_time : Q) : option stats :=
  match trk with
  | [] => None
  | _ =>
      let idx := Z.to_nat (snapshot_index (map s_time trk) sim_time) in
      Some (stats_of margin (nth idx trk default_sample))
  end.

(** [driver_stats], in dict insertion order. *)
Definition driver_stats (tl : list sample) (sim_time : Q) : list (string * stats) :=
  let margin := lap_distance_margin tl in
  filter_some (map (fun drv => option_map (pair drv)
                                 (snapshot (driver_track tl drv) margin sim_time))
                   (drivers_of tl)).
End Viewer.

(* ------------------------------------------------------------------ *)
(** ** Standings engine (viewer.py) *)

Definition list_max_Z (l : list Z) : option Z :=
  match l with
  | [] => None
  | z :: zs => Some (fold_left Z.max zs z)
  end.

(** [current_lap]: the largest lap among all rows with [time <= sim_time],
    0 when there is none. *)
Definition current_lap (tl : list sample) (sim_time : Q) : Z :=
  opt_or (list_max_Z (map s_lap (filter (fun s => Qle_bool (s_time s) sim_time) tl))) 0%Z.

(** [driver_positions.get(drv, 99)]. *)
Fixpoint position_of (positions : list (string * Q)) (drv : string) : Q :=
  match positions with
  | [] => 99
  | (d, p) :: t => if String.eqb d drv then p else position_of t drv
  end.

(** The two branches of the leaderboard sort. *)
Definition finished_order (positions : list (string * Q)) (st : list (string * stats))
  : list (string * stats) :=
  py_sorted (fun e => position_of positions (fst e)) false st.

Definition progress_order (st : list (string * stats)) : list (string * stats) :=
  py_sorted (fun e => st_progress (snd e)) true st.

Definition standings (cur_lap total_laps : Z) (positions : list (string * Q))
  (st : list (string * stats)) : list (string * stats) :=
  if (total_laps <=? cur_lap)%Z then finished_order positions st
  else progress_order st.

(** [gap_str] of the entry at 1-based position [pos]. *)
Definition gap_str (pos : nat) (leader_time : Q) (leader_lap : Z) (info : stats) : string :=
  if Z.eqb (st_lap info) leader_lap then
    if Nat.eqb pos 1 then ""
    else
      let gap_sec := leader_time - st_time info in
      let gap_sec := if Qltb gap_sec 0 && Qltb (-(1 # 1000)) gap_sec then 0 else gap_sec in
      let gap_sec := Qmax 0 gap_sec in
      " +" ++ fmt_time gap_sec
  else
    let lap_diff := (leader_lap - st_lap info)%Z in
    if (lap_diff <=? 0)%Z then ""
    else if (lap_diff =? 1)%Z then " +1 lap"
    else " +" ++ Z_to_string lap_diff ++ " laps".

Fixpoint gap_labels (pos : nat) (leader_time : Q) (leader_lap : Z)
  (l : list (string * stats)) : list string :=
  match l with
  | [] => []
  | (_, info) :: t => gap_str pos leader_time leader_lap info
                        :: gap_labels (S pos) leader_time leader_lap t
  end.

Definition leader_of (ranked : list (string * stats)) : Q * Z :=
  match ranked with
  | (_, info) :: _ => (st_time info, st_lap info)
  | [] => (0, 0%Z)
  end.

(** An entry read out of range. *)
Definition default_entry : string * stats := (""%string, stats_of 0 default_sample).

(** What one frame shows in the leaderboard: finished regime flag,
    ranked drivers and their gap strings. *)
Record frame := {
  fr_finished : bool;
  fr_ranked : list (string * stats);
  fr_gaps : list string
}.

Definition leaderboard (sort_values : list sample -> list sample) (tl : list sample)
  (total_laps : Z) (positions : list (string * Q)) (sim_time : Q) : frame :=
  let st := driver_stats sort_values tl sim_time in
  let cl := current_lap tl sim_time in
  let ranked := standings cl total_laps positions st in
  let '(lt, ll) := leader_of ranked in
  {| fr_finished := (total_laps <=? cl)%Z;
     fr_ranked := ranked;
     fr_gaps := gap_labels 1 lt ll ranked |}.


(* ------------------------------------------------------------------ *)
(** ** Playback clock (viewer.py main loop) *)

Record clock := { sim_time : Q; playing : bool; speed : Q }.

Inductive command :=
  | Key_space            (* play/pause *)
  | Key_up               (* speed x2 *)
  | Key_down             (* speed /2 *)
  | Key_right            (* scrub +1 s, paused only *)
  | Key_left             (* scrub -1 s, paused only *)
  | Key_other            (* point size, labels: no clock change *)
  | Tick (dt : Q).       (* end of frame: advance while playing *)

(** [times[0]] and [times[-1]] of [np.sort(telemetry['time'].unique())]. *)
Definition time_bounds (tl : list sample) : option (Q * Q) :=
  match list_min (map s_time tl), list_max (map s_time tl) with
  | Some lo, Some hi => Some (lo, hi)
  | _, _ => None
  end.

Definition clock_init (t0 : Q) : clock :=
  {| sim_time := t0; playing := true; speed := 4 |}.

Definition clock_step (t0 t1 : Q) (c : clock) (cmd : command) : clock :=
  match cmd with
  | Key_space => {| sim_time := sim_time c; playing := negb (playing c); speed := speed c |}
  | Key_up => {| sim_time := sim_time c; playing := playing c; speed := Qmin 128 (speed c * 2) |}
  | Key_down => {| sim_time := sim_time c; playing := playing c; speed := Qmax (1 # 8) (speed c / 2) |}
  | Key_right =>
      if playing c then c
      else {| sim_time := Qmin (sim_time c + 1) t1; playing := playing c; speed := speed c |}
  | Key_left =>
      if playing c then c
      else {| sim_time := Qmax (sim_time c - 1) t0; playing := playing c; speed := speed c |}
  | Key_other => c
  | Tick dt =>
      if playing c then
        let s := sim_time c + dt * speed c in
        let s := if Qltb t1 s then t1 else s in
        let s := if Qltb s t0 then t0 else s in
        {| sim_time := s; playing := playing c; speed := speed c |}
      else c
  end.

Definition run_clock (t0 t1 : Q) (cmds : list command) : clock :=
  fold_left (clock_step t0 t1) cmds (clock_init t0).

(* ------------------------------------------------------------------ *)
(** ** Event alignment: track status (viewer.py) *)

(** [session.status_data] as (epoch seconds of 'Time', 'Status') pairs,
    [None] when the session has no such attribute; [abs_min] is
    [telemetry_abs_min] when the timeline carries absolute times. *)
Definition align_status (status_data : option (list (Q * string))) (abs_min : option Q)
  : list Q * list string :=
  match status_data with
  | None | Some [] => ([], [])
  | Some sd =>
      let sd_epoch := map fst sd in
      let status_times :=
        match abs_min with
        | Some m => map (fun t => t - m) sd_epoch
        | None => map (fun t => t - hd 0 sd_epoch) sd_epoch
        end in
      (status_times, map snd sd)
  end.

Definition safety_label (code : string) : string :=
  if String.eqb code "3" || String.eqb code "3.0" then "Safety Car Deployed"
  else if String.eqb code "7" || String.eqb code "7.0" then "VSC Deployed"
  else if String.eqb code "2" || String.eqb code "2.0" then "Safety Car Reported"
  else if String.eqb code "5" || String.eqb code "5.0" then "Yellow Flag"
  else if String.eqb code "4" || String.eqb code "4.0" then "Red Flag"
  else if String.eqb code "6" || String.eqb code "6.0"
          || String.eqb code "8" || String.eqb code "8.0" then "Safety Car Ending"
  else "Green Flag".

(** [current_status] of a frame: rightmost status with time <= sim_time,
    '1' when there is none. *)
Definition current_status (status_times : list Q) (status_codes : list string)
  (sim_time : Q) : string :=
  let idx := (Z.of_nat (searchsorted_right status_times sim_time) - 1)%Z in
  if (0 <=? idx)%Z && (idx <? Z.of_nat (List.length status_codes))%Z
  then nth (Z.to_nat idx) status_codes "1"%string
  else "1"%string.

Definition status_view (status_data : option (list (Q * string))) (abs_min : option Q)
  (sim_time : Q) : string * string :=
  let '(times, codes) := align_status status_data abs_min in
  let cur := current_status times codes sim_time in
  (cur, safety_label cur).

(* ------------------------------------------------------------------ *)
(** ** Coordinate normalizer: [normalize_coords] (helpers.py) *)

(** Python float division: [ZeroDivisionError] when the divisor is 0. *)
Definition py_div (a b : Q) : option Q :=
  if Qeq_bool b 0 then None else Some (a / b).

(** [ndarray.astype(int)]: truncation toward zero. *)
Definition trunc (q : Q) : Z :=
  if Qle_bool 0 q then Qfloor q else (- Qfloor (- q))%Z.

(** [None] stands for a raised exception ([np.nanmin] of an empty array,
    or a division by zero). *)
Definition normalize_coords (xs ys : list Q) (avail_w avail_h : Z) (padding : Z)
  : option (list Z * list Z) :=
  match list_min xs, list_max xs, list_min ys, list_max ys with
  | Some min_x, Some max_x, Some min_y, Some max_y =>
      let dx := if negb (Qeq_bool max_x min_x) then max_x - min_x else 1 in
      let dy := if negb (Qeq_bool max_y min_y) then max_y - min_y else 1 in
      let effective_w := inject_Z (avail_w - padding * 2) in
      let effective_h := inject_Z (avail_h - padding * 2) in
      match py_div effective_w dx, py_div effective_h dy with
      | Some sw, Some sh =>
          let scale := Qmin sw sh in
          let nx := map (fun x => (x - min_x) * scale + inject_Z padding) xs in
          let ny := map (fun y => inject_Z avail_h - ((y - min_y) * scale + inject_Z padding)) ys in
          Some (map trunc nx, map trunc ny)
      | _, _ => None
      end
  | _, _, _, _ => None
  end.

(* ------------------------------------------------------------------ *)
(** ** Driver colours: [gen_color_from_string] (helpers.py) *)

(** One lowercase hexadecimal digit. *)
Definition hex_char (n : nat) : ascii :=
  if (n <? 10)%nat then ascii_of_nat (48 + n) else ascii_of_nat (87 + n).

(** [hashlib.md5(...).hexdigest()]: two lowercase hex digits per byte. *)
Definition hexdigest (d : list Byte.byte) : string :=
  string_of_list_ascii
    (flat_map (fun b => let n := Byte.to_nat b in
                        [hex_char (n / 16); hex_char (n mod 16)]) d).

Definition hex_val (c : ascii) : option Z :=
  let n := nat_of_ascii c in
  if (48 <=? n)%nat && (n <=? 57)%nat then Some (Z.of_nat n - 48)%Z
  else if (97 <=? n)%nat && (n <=? 102)%nat then Some (Z.of_nat n - 87)%Z
  else if (65 <=? n)%nat && (n <=? 70)%nat then Some (Z.of_nat n - 55)%Z
  else None.

Fixpoint parse_hex_digits (l : list ascii) (acc : Z) : option Z :=
  match l with
  | [] => Some acc
  | c :: t => match hex_val c with
              | Some v => parse_hex_digits t (acc * 16 + v)
              | None => None
              end
  end.

(** [int(s, 16)] on a string of hexadecimal digits, the only strings
    [hexdigest] produces; [None] for the empty string, where [int]
    raises. *)
Definition int16 (s : string) : option Z :=
  match list_ascii_of_string s with
  | [] => None
  | l => parse_hex_digits l 0
  end.

Section Colors.
(** [hashlib.md5(str(s).encode("utf8")).digest()]. *)
Variable md5 : string -> list Byte.byte.

Definition gen_color_from_string (s : string) : option (Z * Z * Z) :=
  let h := hexdigest (md5 s) in
  match int16 (substring 0 2 h), int16 (substring 2 2 h), int16 (substring 4 2 h) with
  | Some r, Some g, Some b =>
      Some ((80 + r mod 176)%Z, (80 + g mod 176)%Z, (80 + b mod 176)%Z)
  | _, _, _ => None
  end.
End Colors.

(* ------------------------------------------------------------------ *)
(** ** Main loop of [run_viewer]: events, frames and side panels *)

(** The pygame keys the loop tests, and any other key. *)
Inductive pg_key :=
  | K_SPACE | K_ESCAPE | K_q | K_UP | K_DOWN | K_PLUS | K_EQUALS
  | K_MINUS | K_UNDERSCORE | K_l | K_RIGHT | K_LEFT | K_other_key.

Inductive pg_event :=
  | Ev_QUIT
  | Ev_KEYDOWN (k : pg_key)
  | Ev_other.

(** The loop's mutable locals besides the timeline data. *)
Record ui_state := {
  ui_clock : clock;       (* sim_time, playing, speed *)
  point_size : Z;
  show_labels : bool;
  running : bool
}.

Definition set_clock (u : ui_state) (c : clock) : ui_state :=
  {| ui_clock := c; point_size := point_size u; show_labels := show_labels u;
     running := running u |}.

Definition set_point_size (u : ui_state) (p : Z) : ui_state :=
  {| ui_clock := ui_clock u; point_size := p; show_labels := show_labels u;
     running := running u |}.

Definition set_show_labels (u : ui_state) (b : bool) : ui_state :=
  {| ui_clock := ui_clock u; point_size := point_size u; show_labels := b;
     running := running u |}.

Definition set_running (u : ui_state) (b : bool) : ui_state :=
  {| ui_clock := ui_clock u; point_size := point_size u; show_labels := show_labels u;
     running := b |}.

(** One iteration of [for ev in pygame.event.get()]; [t0], [t1] are
    [times[0]] and [times[-1]]. *)
Definition handle_event (t0 t1 : Q) (u : ui_state) (ev : pg_event) : ui_state :=
  let c := ui_clock u in
  match ev with
  | Ev_QUIT => set_running u false
  | Ev_other => u
  | Ev_KEYDOWN k =>
      match k with
      | K_SPACE =>
          set_clock u {| sim_time := sim_time c; playing := negb (playing c); speed := speed c |}
      | K_ESCAPE | K_q => set_running u false
      | K_UP =>
          set_clock u {| sim_time := sim_time c; playing := playing c;
                         speed := Qmin 128 (speed c * 2) |}
      | K_DOWN =>
          set_clock u {| sim_time := sim_time c; playing := playing c;
                         speed := Qmax (1 # 8) (speed c / 2) |}
      | K_PLUS | K_EQUALS => set_point_size u (Z.min 30 (point_size u + 1))
      | K_MINUS | K_UNDERSCORE => set_point_size u (Z.max 2 (point_size u - 1))
      | K_l => set_show_labels u (negb (show_labels u))
      | _ =>
          if negb (playing c) then
            match k with
            | K_RIGHT =>
                set_clock u {| sim_time := Qmin (sim_time c + 1) t1; playing := playing c;
                               speed := speed c |}
            | K_LEFT =>
                set_clock u {| sim_time := Qmax (sim_time c - 1) t0; playing := playing c;
                               speed := speed c |}
            | _ => u
            end
          else u
      end
  end.

(** One pass of [while running]: the events of the frame, then the
    advance by [dt * speed] with its clamp (drawing left out). *)
Definition frame_step (t0 t1 : Q) (u : ui_state) (events : list pg_event) (dt : Q)
  : ui_state :=
  let u := fold_left (handle_event t0 t1) events u in
  let c := ui_clock u in
  if playing c then
    let s := sim_time c + dt * speed c in
    let s := if Qltb t1 s then t1 else s in
    let s := if Qltb s t0 then t0 else s in
    set_clock u {| sim_time := s; playing := playing c; speed := speed c |}
  else u.

(** The loop over frames, each given by its events and its [dt]; the
    condition [running] is tested before every frame. *)
Fixpoint run_frames (t0 t1 : Q) (u : ui_state) (frames : list (list pg_event * Q))
  : ui_state :=
  match frames with
  | [] => u
  | (evs, dt) :: rest =>
      if running u then run_frames t0 t1 (frame_step t0 t1 u evs dt) rest else u
  end.

(** The state before the loop; [default_point_size] is
    [DEFAULT_POINT_SIZE] of the configuration module. *)
Definition ui_init (t0 : Q) (default_point_size : Z) : ui_state :=
  {| ui_clock := clock_init t0; point_size := default_point_size;
     show_labels := true; running := true |}.

(** The playback command an event amounts to. *)
Definition command_of (ev : pg_event) : command :=
  match ev with
  | Ev_KEYDOWN K_SPACE => Key_space
  | Ev_KEYDOWN K_UP => Key_up
  | Ev_KEYDOWN K_DOWN => Key_down
  | Ev_KEYDOWN K_RIGHT => Key_right
  | Ev_KEYDOWN K_LEFT => Key_left
  | _ => Key_other
  end.

Definition is_quit (ev : pg_event) : bool :=
  match ev with
  | Ev_QUIT | Ev_KEYDOWN K_ESCAPE | Ev_KEYDOWN K_q => true
  | _ => false
  end.

(** The red progress bar: [frac] and the width [int(bar_w * frac)]. *)
Definition progress_frac (t0 t1 sim : Q) : Q :=
  if Qltb t0 t1 then (sim - t0) / (t1 - t0) else 0.

Definition progress_fill (bar_w : Z) (t0 t1 sim : Q) : Z :=
  trunc (inject_Z bar_w * progress_frac t0 t1 sim).

(** The race-control line: the rightmost message with time <= sim_time
    ('' when none), cut to 40 characters. *)
Definition message_at (message_times : list Q) (messages : list string) (sim : Q)
  : string :=
  let idx := (Z.of_nat (searchsorted_right message_times sim) - 1)%Z in
  if (0 <=? idx)%Z && (idx <? Z.of_nat (List.length messages))%Z
  then nth (Z.to_nat idx) messages ""%string
  else ""%string.

Definition truncate_message (m : string) : string :=
  if (40 <? String.length m)%nat then (substring 0 37 m ++ "...")%string else m.

Definition last_message (message_times : list Q) (messages : list string) (sim : Q)
  : string :=
  truncate_message (message_at message_times messages sim).

(** The drivers listed as DNF: those of [drivers] without a snapshot. *)
Definition dnf_drivers (sort_values : list sample -> list sample) (tl : list sample)
  (sim : Q) : list string :=
  filter (fun d => negb (existsb (String.eqb d) (map fst (driver_stats sort_values tl sim))))
         (drivers_of tl).

(** Membership up to [Qeq]. *)
Fixpoint In_q (x : Q) (l : list Q) : Prop :=
  match l with [] => False | y :: t => x == y \/ In_q x t end.

(** The speeds the up and down keys can reach. *)
Definition speed_levels : list Q := [1 # 8; 1 # 4; 1 # 2; 1; 2; 4; 8; 16; 32; 64; 128].

(* ------------------------------------------------------------------ *)
(** ** Example sessions *)

(** One lap of driver "VER" whose 18 telemetry rows share the time 5;
    row [i] has [X = i]. *)
Definition tie_row (i : nat) : tel_row :=
  {| row_X := Some (inject_Z (Z.of_nat i)); row_Y := Some 0;
     row_Distance := 0; row_time := 5 |}.

Definition tie_laps : list lap_row :=
  [ {| lap_Driver := "VER"; lap_LapNumber := Some 1%Z;
       lap_telemetry := Some {| tel_rows := map tie_row (seq 0 18);
                                tel_has_XY := true; tel_has_Distance := true;
                                tel_time_ok := true |} |} ].

Definition tie_session : session := {| laps := Some tie_laps |}.

(** A lap with a single telemetry row at time [t], position (0, 0) and
    Distance [dist]. *)
Definition one_row_lap (drv : string) (lap : Z) (t dist : Q) : lap_row :=
  {| lap_Driver := drv; lap_LapNumber := Some lap;
     lap_telemetry := Some {| tel_rows := [ {| row_X := Some 0; row_Y := Some 0;
                                               row_Distance := dist; row_time := t |} ];
                              tel_has_XY := true; tel_has_Distance := true;
                              tel_time_ok := true |} |}.

(** "A" on lap 2 with a negative Distance, "B" on lap 1. *)
Definition neg_distance_session : session :=
  {| laps := Some [one_row_lap "A" 2 0 (-2000); one_row_lap "B" 1 0 0] |}.

(** "A" on lap 1 from time 100, "B" on lap 3 from time 105. *)
Definition prestart_laps : list lap_row :=
  [one_row_lap "A" 1 100 0; one_row_lap "B" 3 105 0].

Definition prestart_session : session := {| laps := Some prestart_laps |}.

(** Two drivers with identical samples, listed in either order. *)
Definition tie_session_BA : session :=
  {| laps := Some [one_row_lap "B" 1 0 0; one_row_lap "A" 1 0 0] |}.

(** A driver's track of two samples, at times 0 and 5. *)
Definition two_sample_track : list sample :=
  [ {| s_driver := "A"; s_time := 0; s_x := 0; s_y := 0; s_lap := 1; s_distance := 0 |};
    {| s_driver := "A"; s_time := 5; s_x := 1; s_y := 0; s_lap := 1; s_distance := 50 |} ].

(** Two drivers, "A" a lap ahead of "B", and a third "C" on the lap of
    "A" but 1/2000 s behind it in the timeline. *)
Definition three_driver_timeline : list sample :=
  [ {| s_driver := "B"; s_time := 0; s_x := 0; s_y := 0; s_lap := 1; s_distance := 10 |};
    {| s_driver := "A"; s_time := 0; s_x := 1; s_y := 0; s_lap := 2; s_distance := 10 |};
    {| s_driver := "C"; s_time := 1 # 2000; s_x := 2; s_y := 0; s_lap := 2; s_distance := 5 |} ].

Definition tie_session_AB : session :=
  {| laps := Some [one_row_lap "A" 1 0 0; one_row_lap "B" 1 0 0] |}.

(* ================================================================== *)
(** * Properties *)

(** ** Rational comparisons *)

Lemma Qltb_true a b : Qltb a b = true <-> a < b.
Proof.
  unfold Qltb. rewrite negb_true_iff. split; intro H.
  - apply Qnot_le_lt. intro H'. apply Qle_bool_iff in H'. congruence.
  - destruct (Qle_bool b a) eqn:E; [|reflexivity].
    apply Qle_bool_iff in E. exfalso. apply (Qlt_not_le a b); assumption.
Qed.

Lemma Qltb_false a b : Qltb a b = false <-> b <= a.
Proof.
  unfold Qltb. rewrite negb_false_iff. apply Qle_bool_iff.
Qed.

Lemma Qmin_cases a b : (a <= b /\ Qmin a b = a) \/ (b < a /\ Qmin a b = b).
Proof.
  unfold Qmin, GenericMinMax.gmin. destruct (a ?= b) eqn:E.
  - left. split; [|reflexivity]. apply Qeq_alt in E. rewrite E. apply Qle_refl.
  - left. split; [|reflexivity]. apply Qlt_le_weak. apply Qlt_alt. exact E.
  - right. split; [|reflexivity]. apply Qgt_alt. exact E.
Qed.

Lemma Qmax_cases a b : (b <= a /\ Qmax a b = a) \/ (a < b /\ Qmax a b = b).
Proof.
  unfold Qmax, GenericMinMax.gmax. destruct (a ?= b) eqn:E.
  - left. split; [|reflexivity]. apply Qeq_alt in E. rewrite E. apply Qle_refl.
  - right. split; [|reflexivity]. apply Qlt_alt. exact E.
  - left. split; [|reflexivity]. apply Qlt_le_weak. apply Qgt_alt. exact E.
Qed.

Ltac qcase :=
  repeat match goal with
  | |- context [Qmin ?a ?b] =>
      let H := fresh "Hm" in let E := fresh "Em" in
      destruct (Qmin_cases a b) as [[H E]|[H E]]; rewrite E; clear E
  | |- context [Qmax ?a ?b] =>
      let H := fresh "Hm" in let E := fresh "Em" in
      destruct (Qmax_cases a b) as [[H E]|[H E]]; rewrite E; clear E
  | |- context [Qltb ?a ?b] =>
      let E := fresh "Eb" in
      destruct (Qltb a b) eqn:E;
      [apply Qltb_true in E | apply Qltb_false in E]
  end.

(** ** Minimum and maximum of a column *)

Lemma fold_min_spec (l : list Q) (acc : Q) :
  let m := fold_left Qmin l acc in
  (m = acc \/ In m l) /\ m <= acc /\ (forall z, In z l -> m <= z).
Proof.
  revert acc; induction l as [|h t IH]; intro acc; simpl.
  - split; [left; reflexivity|]. split; [apply Qle_refl|]. intros z [].
  - destruct (IH (Qmin acc h)) as [Hin [Hle Hall]].
    set (m := fold_left Qmin t (Qmin acc h)) in *.
    destruct (Qmin_cases acc h) as [[H E]|[H E]]; rewrite E in *.
    + split; [destruct Hin; auto|]. split; [exact Hle|].
      intros z [<-|Hz]; [lra|auto].
    + split; [destruct Hin; auto|]. split; [lra|].
      intros z [<-|Hz]; [exact Hle|auto].
Qed.

Lemma list_min_spec (l : list Q) m :
  list_min l = Some m -> In m l /\ (forall z, In z l -> m <= z).
Proof.
  destruct l as [|h t]; simpl; intro E; [discriminate|]. injection E as <-.
  destruct (fold_min_spec t h) as [Hin [Hle Hall]].
  split; [destruct Hin as [E|E]; [left; symmetry; exact E|right; exact E]|].
  intros z [<-|Hz]; auto.
Qed.

Lemma fold_max_spec (l : list Q) (acc : Q) :
  let m := fold_left Qmax l acc in
  (m = acc \/ In m l) /\ acc <= m /\ (forall z, In z l -> z <= m).
Proof.
  revert acc; induction l as [|h t IH]; intro acc; simpl.
  - split; [left; reflexivity|]. split; [apply Qle_refl|]. intros z [].
  - destruct (IH (Qmax acc h)) as [Hin [Hle Hall]].
    set (m := fold_left Qmax t (Qmax acc h)) in *.
    destruct (Qmax_cases acc h) as [[H E]|[H E]]; rewrite E in *.
    + split; [destruct Hin; auto|]. split; [exact Hle|].
      intros z [<-|Hz]; [lra|auto].
    + split; [destruct Hin; auto|]. split; [lra|].
      intros z [<-|Hz]; [exact Hle|auto].
Qed.

Lemma list_max_spec (l : list Q) m :
  list_max l = Some m -> In m l /\ (forall z, In z l -> z <= m).
Proof.
  destruct l as [|h t]; simpl; intro E; [discriminate|]. injection E as <-.
  destruct (fold_max_spec t h) as [Hin [Hle Hall]].
  split; [destruct Hin as [E|E]; [left; symmetry; exact E|right; exact E]|].
  intros z [<-|Hz]; auto.
Qed.

Lemma list_min_some (l : list Q) : l <> [] -> exists m, list_min l = Some m.
Proof. destruct l; simpl; [congruence|eauto]. Qed.

Lemma list_max_some (l : list Q) : l <> [] -> exists m, list_max l = Some m.
Proof. destruct l; simpl; [congruence|eauto]. Qed.

(** ** Playback clock *)

Definition clock_ok (t0 t1 : Q) (c : clock) : Prop :=
  t0 <= sim_time c <= t1 /\ 1 # 8 <= speed c <= 128.

Lemma clock_step_ok t0 t1 c cmd :
  t0 <= t1 -> clock_ok t0 t1 c -> clock_ok t0 t1 (clock_step t0 t1 c cmd).
Proof.
  intros H01 [[Hs0 Hs1] [Hv0 Hv1]].
  destruct cmd as [| | | | | |dt]; simpl; unfold clock_ok; simpl.
  - lra.
  - qcase; lra.
  - unfold Qdiv; change (Qinv 2) with (1 # 2). qcase; lra.
  - destruct (playing c); simpl; [unfold clock_ok; lra|]. qcase; lra.
  - destruct (playing c); simpl; [unfold clock_ok; lra|]. qcase; lra.
  - lra.
  - destruct (playing c); simpl; [|unfold clock_ok; lra].
    set (s := sim_time c + dt * speed c). qcase; lra.
Qed.

Lemma time_bounds_le tl t0 t1 : time_bounds tl = Some (t0, t1) -> t0 <= t1.
Proof.
  unfold time_bounds.
  destruct (list_min (map s_time tl)) as [lo|] eqn:E0; [|discriminate].
  destruct (list_max (map s_time tl)) as [hi|] eqn:E1; [|discriminate].
  intro E; injection E as <- <-.
  apply list_min_spec in E0 as [Hin _]. apply list_max_spec in E1 as [_ Hall].
  apply Hall, Hin.
Qed.

(** C7: from the initial state (sim_time at the first timeline time,
    playing, speed 4), after any sequence of play/pause toggles, ticks,
    scrubs and speed doublings/halvings, sim_time stays within the
    timeline's [min_time, max_time] and speed within [0.125, 128]. *)
Theorem playback_clock_bounded (tl : list sample) (t0 t1 : Q)
  (Hb : time_bounds tl = Some (t0, t1)) (cmds : list command) :
  t0 <= sim_time (run_clock t0 t1 cmds) <= t1
  /\ 1 # 8 <= speed (run_clock t0 t1 cmds) <= 128.
Proof.
  apply time_bounds_le in Hb.
  change (clock_ok t0 t1 (run_clock t0 t1 cmds)).
  unfold run_clock.
  assert (Hi : clock_ok t0 t1 (clock_init t0)) by (unfold clock_ok; simpl; lra).
  revert Hi. generalize (clock_init t0). induction cmds as [|c0 cs IH]; intros c Hc; simpl.
  - exact Hc.
  - apply IH, clock_step_ok; assumption.
Qed.

(** ** Track status *)

(** C9: over the stream [(0,'1'),(5,'4')] the rightmost-<= lookup gives
    '1' (green flag) at 3, '4' (red flag) at 6 and no entry at -1, which
    defaults to green flag; a missing or empty status stream yields the
    green-flag default for every time. *)
Theorem status_lookup_example :
  current_status [0; 5] ["1"; "4"]%string 3 = "1"%string
  /\ status_view (Some [(0, "1"); (5, "4")]%string) None 3 = ("1", "Green Flag")%string
  /\ current_status [0; 5] ["1"; "4"]%string 6 = "4"%string
  /\ status_view (Some [(0, "1"); (5, "4")]%string) None 6 = ("4", "Red Flag")%string
  /\ current_status [0; 5] ["1"; "4"]%string (-1) = "1"%string
  /\ status_view (Some [(0, "1"); (5, "4")]%string) None (-1) = ("1", "Green Flag")%string
  /\ (forall abs_min t, status_view None abs_min t = ("1", "Green Flag")%string)
  /\ (forall abs_min t, status_view (Some []) abs_min t = ("1", "Green Flag")%string).
Proof.
  repeat split; try reflexivity.
Qed.

(** ** Coordinate normalizer *)

Lemma span_nonzero (hi lo : Q) :
  Qeq_bool (if negb (Qeq_bool hi lo) then hi - lo else 1) 0 = false.
Proof.
  destruct (Qeq_bool hi lo) eqn:E; simpl; [reflexivity|].
  destruct (Qeq_bool (hi - lo) 0) eqn:E'; [|reflexivity].
  apply Qeq_bool_iff in E'. assert (hi == lo) by lra.
  apply Qeq_bool_iff in H. congruence.
Qed.

(** C10: on non-empty coordinate arrays [normalize_coords] always
    returns integer screen coordinates: the spans are replaced by 1.0
    when all values coincide, so no division by zero is raised. *)
Theorem normalize_coords_total (xs ys : list Q) (avail_w avail_h padding : Z)
  (Hx : xs <> []) (Hy : ys <> []) :
  exists nx ny, normalize_coords xs ys avail_w avail_h padding = Some (nx, ny)
    /\ List.length nx = List.length xs /\ List.length ny = List.length ys.
Proof.
  destruct (list_min_some xs Hx) as [min_x Ex0].
  destruct (list_max_some xs Hx) as [max_x Ex1].
  destruct (list_min_some ys Hy) as [min_y Ey0].
  destruct (list_max_some ys Hy) as [max_y Ey1].
  unfold normalize_coords. rewrite Ex0, Ex1, Ey0, Ey1.
  unfold py_div. rewrite !span_nonzero.
  eexists _, _. split; [reflexivity|]. rewrite !length_map. split; reflexivity.
Qed.

(** ** Snapshot lookup *)

Definition sorted_q (l : list Q) : Prop :=
  forall i j, (i <= j < List.length l)%nat -> nth i l 0 <= nth j l 0.

Section BinarySearch.
Variables (arr : list Q) (key : Q).
Hypothesis Hsorted : sorted_q arr.

Lemma bsearch_right_spec fuel lo hi :
  (lo <= hi <= List.length arr)%nat ->
  (hi - lo <= fuel)%nat ->
  (forall j, (j < lo)%nat -> nth j arr 0 <= key) ->
  (forall j, (hi <= j < List.length arr)%nat -> key < nth j arr 0) ->
  let r := bsearch_right fuel arr key lo hi in
  (r <= List.length arr)%nat
  /\ (forall j, (j < r)%nat -> nth j arr 0 <= key)
  /\ (forall j, (r <= j < List.length arr)%nat -> key < nth j arr 0).
Proof.
  revert lo hi; induction fuel as [|f IH]; intros lo hi Hb Hf Hlo Hhi; cbn [bsearch_right].
  - assert (lo = hi) by lia. subst. split; [lia|split; assumption].
  - destruct (lo <? hi)%nat eqn:Elt.
    + apply Nat.ltb_lt in Elt.
      set (mid := (lo + (hi - lo) / 2)%nat).
      assert (Hmid : (lo <= mid < hi)%nat).
      { unfold mid. split; [lia|].
        assert ((hi - lo) / 2 < hi - lo)%nat by (apply Nat.div_lt; lia). lia. }
      destruct (Qle_bool (nth mid arr 0) key) eqn:Em.
      * apply Qle_bool_iff in Em. apply IH; [lia| |intros j Hj|exact Hhi].
        -- assert ((hi - lo) / 2 < hi - lo)%nat by (apply Nat.div_lt; lia).
           unfold mid. lia.
        -- destruct (Nat.lt_ge_cases j lo); [auto|].
           apply Qle_trans with (nth mid arr 0); [apply Hsorted; lia|exact Em].
      * assert (Em' : key < nth mid arr 0).
        { apply Qnot_le_lt. intro H. apply Qle_bool_iff in H. congruence. }
        apply IH; [lia| |exact Hlo|intros j Hj].
        -- assert ((hi - lo) / 2 < hi - lo)%nat by (apply Nat.div_lt; lia).
           unfold mid. lia.
        -- apply Qlt_le_trans with (nth mid arr 0); [exact Em'|apply Hsorted; lia].
    + apply Nat.ltb_ge in Elt. assert (lo = hi) by lia. subst. split; [lia|split; assumption].
Qed.

Lemma searchsorted_right_spec :
  let r := searchsorted_right arr key in
  (r <= List.length arr)%nat
  /\ (forall j, (j < r)%nat -> nth j arr 0 <= key)
  /\ (forall j, (r <= j < List.length arr)%nat -> key < nth j arr 0).
Proof.
  apply bsearch_right_spec; [lia|lia|intros; lia|intros; lia].
Qed.
End BinarySearch.

(** C2: for a driver with at least one sample (the rows sorted by time,
    as [sort_values('time')] leaves them) and any query time t, the
    snapshot lookup always returns a sample, at index i: the rightmost
    one with time <= t, or index 0 when t precedes the first sample. *)
Theorem snapshot_lookup_rightmost (trk : list sample) (margin t : Q)
  (Hs : sorted_q (map s_time trk)) (Hne : trk <> []) :
  exists i,
    snapshot trk margin t = Some (stats_of margin (nth i trk default_sample))
    /\ (i < List.length trk)%nat
    /\ (t < s_time (nth 0 trk default_sample) -> i = 0%nat)
    /\ (s_time (nth 0 trk default_sample) <= t ->
          s_time (nth i trk default_sample) <= t
          /\ forall j, (i < j < List.length trk)%nat ->
                       t < s_time (nth j trk default_sample)).
Proof.
  assert (Hn : forall j, nth j (map s_time trk) 0 = s_time (nth j trk default_sample)).
  { intro j. change 0 with (s_time default_sample). apply map_nth. }
  destruct (searchsorted_right_spec (map s_time trk) t Hs) as [Hr [Hle Hgt]].
  rewrite length_map in Hr, Hgt.
  set (r := searchsorted_right (map s_time trk) t) in *.
  assert (Hlen : (0 < List.length trk)%nat) by (destruct trk; [congruence|simpl; lia]).
  destruct r as [|r'] eqn:Er.
  - exists 0%nat. unfold snapshot. destruct trk as [|s0 tr]; [congruence|].
    unfold snapshot_index. fold r. rewrite Er. simpl (Z.of_nat 0 - 1)%Z. simpl.
    split; [reflexivity|]. split; [simpl; lia|]. split; [reflexivity|].
    intro H0. exfalso. specialize (Hgt 0%nat). rewrite Hn in Hgt.
    assert (t < s_time (nth 0 (s0 :: tr) default_sample)) by (apply Hgt; simpl in *; lia).
    simpl in *. lra.
  - exists r'. unfold snapshot. destruct trk as [|s0 tr]; [congruence|].
    unfold snapshot_index. fold r. rewrite Er.
    replace (Z.of_nat (S r') - 1)%Z with (Z.of_nat r') by lia.
    destruct (Z.of_nat r' <? 0)%Z eqn:E1; [apply Z.ltb_lt in E1; lia|].
    rewrite length_map.
    destruct (Z.of_nat (List.length (s0 :: tr)) <=? Z.of_nat r')%Z eqn:E2;
      [apply Z.leb_le in E2; lia|].
    rewrite Nat2Z.id. split; [reflexivity|]. split; [lia|]. split.
    + intro H0. exfalso. specialize (Hle 0%nat). rewrite Hn in Hle.
      assert (s_time (nth 0 (s0 :: tr) default_sample) <= t) by (apply Hle; lia).
      simpl in *. lra.
    + intros _. split.
      * rewrite <- Hn. apply Hle. lia.
      * intros j Hj. rewrite <- Hn. apply Hgt. lia.
Qed.

(** ** Stable insertion sort: permutation, order, stability *)

Lemma filter_all_false {A} (p : A -> bool) (l : list A) :
  (forall z, In z l -> p z = false) -> filter p l = [].
Proof.
  induction l as [|y l IH]; intro H; simpl; [reflexivity|].
  rewrite (H y (or_introl eq_refl)). apply IH. intros z Hz. apply H. right. exact Hz.
Qed.

Section StableSortProps.
Context {A : Type} (key : A -> Q).

Let before (a b : A) : bool := Qltb (key a) (key b).
Let R (a b : A) : Prop := key a <= key b.

Lemma ins_perm (x : A) (l : list A) : Permutation (x :: l) (ins before x l).
Proof.
  induction l as [|y l IH]; simpl; [reflexivity|].
  destruct (before x y); [reflexivity|].
  rewrite perm_swap. constructor. exact IH.
Qed.

Lemma fold_ins_perm (l acc : list A) :
  Permutation (acc ++ l) (fold_left (fun acc x => ins before x acc) l acc).
Proof.
  revert acc; induction l as [|x l IH]; intro acc; simpl.
  - rewrite app_nil_r. reflexivity.
  - rewrite <- IH. rewrite <- Permutation_middle.
    change (x :: acc ++ l) with ((x :: acc) ++ l).
    apply Permutation_app_tail, ins_perm.
Qed.

Lemma stable_sort_perm (l : list A) : Permutation l (stable_sort before l).
Proof. apply (fold_ins_perm l []). Qed.

Lemma ins_hd (x y : A) (l : list A) :
  HdRel R y l -> R y x -> HdRel R y (ins before x l).
Proof.
  intros H Hyx. destruct l as [|z l]; simpl.
  - constructor. exact Hyx.
  - destruct (before x z); constructor; [exact Hyx|]. inversion H; assumption.
Qed.

Lemma ins_sorted (x : A) (l : list A) : Sorted R l -> Sorted R (ins before x l).
Proof.
  induction l as [|y l IH]; simpl; intro H.
  - repeat constructor.
  - destruct (before x y) eqn:E.
    + constructor; [exact H|]. constructor.
      unfold before in E. apply Qltb_true in E. unfold R. lra.
    + apply Sorted_inv in H as [Hl Hh]. constructor; [apply IH, Hl|].
      apply ins_hd; [exact Hh|]. unfold before in E. apply Qltb_false in E. exact E.
Qed.

Lemma fold_ins_sorted (l acc : list A) :
  Sorted R acc -> Sorted R (fold_left (fun acc x => ins before x acc) l acc).
Proof.
  revert acc; induction l as [|x l IH]; intros acc H; simpl; [exact H|].
  apply IH, ins_sorted, H.
Qed.

Lemma stable_sort_sorted (l : list A) : Sorted R (stable_sort before l).
Proof. apply fold_ins_sorted. constructor. Qed.

Lemma R_trans : Transitive R.
Proof. intros a b c Hab Hbc. unfold R in *. lra. Qed.

Lemma ins_filter (k : Q) (x : A) (l : list A) :
  Sorted R l ->
  filter (fun z => Qeq_bool (key z) k) (ins before x l)
  = filter (fun z => Qeq_bool (key z) k) l
    ++ (if Qeq_bool (key x) k then [x] else []).
Proof.
  induction l as [|y l IH]; intro H; simpl.
  - destruct (Qeq_bool (key x) k); reflexivity.
  - destruct (before x y) eqn:E; simpl.
    + unfold before in E. apply Qltb_true in E.
      apply Sorted_StronglySorted in H; [|apply R_trans].
      assert (Hnone : forall z, In z (y :: l) -> Qeq_bool (key x) k = true ->
                                Qeq_bool (key z) k = false).
      { intros z Hz Hx. apply Qeq_bool_iff in Hx.
        destruct (Qeq_bool (key z) k) eqn:Ez; [|reflexivity].
        apply Qeq_bool_iff in Ez. exfalso.
        destruct Hz as [<-|Hz]; [lra|].
        apply StronglySorted_inv in H as [_ Hf].
        rewrite Forall_forall in Hf. specialize (Hf z Hz). unfold R in Hf. lra. }
      destruct (Qeq_bool (key x) k) eqn:Ex.
      * assert (filter (fun z => Qeq_bool (key z) k) (y :: l) = []) as Hn.
        { apply filter_all_false. intros z Hz. exact (Hnone z Hz eq_refl). }
        simpl in Hn. rewrite Hn. reflexivity.
      * rewrite app_nil_r. reflexivity.
    + apply Sorted_inv in H as [Hl _].
      destruct (Qeq_bool (key y) k); simpl; rewrite (IH Hl); reflexivity.
Qed.

Lemma fold_ins_filter (k : Q) (l acc : list A) :
  Sorted R acc ->
  filter (fun z => Qeq_bool (key z) k) (fold_left (fun acc x => ins before x acc) l acc)
  = filter (fun z => Qeq_bool (key z) k) acc ++ filter (fun z => Qeq_bool (key z) k) l.
Proof.
  revert acc; induction l as [|x l IH]; intros acc H; simpl.
  - rewrite app_nil_r. reflexivity.
  - rewrite IH by (apply ins_sorted, H). rewrite ins_filter by exact H.
    rewrite <- app_assoc. destruct (Qeq_bool (key x) k); reflexivity.
Qed.

Lemma stable_sort_stable (l : list A) : stable_by key l (stable_sort before l).
Proof. intro k. apply (fold_ins_filter k l []). constructor. Qed.
End StableSortProps.

Lemma stable_sort_ext {A} (f g : A -> A -> bool) (l : list A) :
  (forall a b, f a b = g a b) -> stable_sort f l = stable_sort g l.
Proof.
  intro E. unfold stable_sort. generalize (@nil A).
  induction l as [|x l IH]; intro acc; simpl; [reflexivity|].
  assert (ins f x acc = ins g x acc) as ->.
  { induction acc as [|y acc IHa]; simpl; [reflexivity|]. rewrite E, IHa. reflexivity. }
  apply IH.
Qed.

Lemma py_sorted_reverse {A} (key : A -> Q) (l : list A) :
  py_sorted key true l = stable_sort (fun a b => Qltb (- key a) (- key b)) l.
Proof.
  unfold py_sorted. apply stable_sort_ext. intros a b.
  destruct (Qltb (key b) (key a)) eqn:E1, (Qltb (- key a) (- key b)) eqn:E2; try reflexivity.
  - apply Qltb_true in E1. apply Qltb_false in E2. lra.
  - apply Qltb_false in E1. apply Qltb_true in E2. lra.
Qed.

(** ** Progress score *)

Lemma margin_exceeds (tl : list sample) (b : sample) :
  In b tl -> s_distance b < lap_distance_margin tl /\ 0 < lap_distance_margin tl.
Proof.
  intro Hb. unfold lap_distance_margin.
  assert (Hne : map s_distance tl <> []) by (destruct tl; [destruct Hb|discriminate]).
  destruct (list_max_some _ Hne) as [mx Emx]. rewrite Emx. simpl.
  apply list_max_spec in Emx as [_ Hall].
  specialize (Hall (s_distance b) (in_map _ _ _ Hb)).
  qcase; lra.
Qed.

(** C3 (amended): when every distance of the built dataset is
    non-negative, a sample on a higher lap has a strictly larger
    progress_score than any sample on a lower lap, since
    lap_distance_margin exceeds the largest distance. *)
Theorem progress_score_lap_dominates (tl : list sample) (a b : sample)
  (Hnn : Forall (fun s => 0 <= s_distance s) tl)
  (Ha : In a tl) (Hb : In b tl) (Hlap : (s_lap b < s_lap a)%Z) :
  progress_score (lap_distance_margin tl) (s_lap b) (s_distance b)
  < progress_score (lap_distance_margin tl) (s_lap a) (s_distance a).
Proof.
  destruct (margin_exceeds tl b Hb) as [Hd Hm].
  rewrite Forall_forall in Hnn. specialize (Hnn a Ha). simpl in Hnn.
  set (m := lap_distance_margin tl) in *. unfold progress_score.
  assert (Hk : inject_Z (s_lap b) + 1 <= inject_Z (s_lap a)).
  { change 1 with (inject_Z 1). rewrite <- inject_Z_plus, <- Zle_Qle. lia. }
  assert (Hmul : (inject_Z (s_lap b) + 1) * m <= inject_Z (s_lap a) * m).
  { apply Qmult_le_compat_r; lra. }
  lra.
Qed.

(** ** Timeline Builder: when it yields nothing *)

Lemma fold_unique_in (d : string) (l acc : list string) :
  In d (fold_left (fun acc d => if existsb (String.eqb d) acc then acc else acc ++ [d]) l acc)
  <-> In d acc \/ In d l.
Proof.
  revert acc; induction l as [|h t IH]; intro acc; simpl.
  - tauto.
  - rewrite IH. destruct (existsb (String.eqb h) acc) eqn:E.
    + apply existsb_exists in E as [h' [Hin Eq]]. apply String.eqb_eq in Eq. subst h'.
      split; [tauto|]. intros [H|[<-|H]]; auto.
    + rewrite in_app_iff. simpl. split; intros [H|H]; tauto.
Qed.

Lemma unique_in (d : string) (l : list string) : In d (unique l) <-> In d l.
Proof. unfold unique. rewrite fold_unique_in. simpl. tauto. Qed.

(** A lap whose telemetry holds a row with a valid position and whose
    time column converts. *)
Definition lap_valid (lp : lap_row) : Prop :=
  exists tel r, lap_telemetry lp = Some tel /\ tel_has_XY tel = true
    /\ tel_time_ok tel = true /\ In r (tel_rows tel) /\ xy_valid r = true.

Definition valid_sample_exists (sess : session) : Prop :=
  exists ls lp, laps sess = Some ls /\ In lp ls /\ lap_valid lp.

Lemma lap_frame_some_iff (drv : string) (lp : lap_row) :
  lap_frame drv lp <> None <-> lap_valid lp.
Proof.
  unfold lap_frame, lap_valid.
  destruct (lap_telemetry lp) as [tel|].
  2:{ split; [congruence|]. intros (t & r & E & _). discriminate. }
  destruct (tel_rows tel) as [|r0 rs] eqn:Er.
  { split; [congruence|]. intros (t & r & E & _ & _ & Hin & _).
    injection E; intros; subst. rewrite Er in Hin. destruct Hin. }
  destruct (tel_has_XY tel) eqn:Exy; cbn [negb].
  2:{ split; [congruence|]. intros (t & r & E & H & _). injection E; intros; subst. congruence. }
  destruct (tel_time_ok tel) eqn:Eto; cbn [negb].
  2:{ split; [congruence|]. intros (t & r & E & _ & H & _). injection E; intros; subst. congruence. }
  destruct (filter xy_valid (r0 :: rs)) as [|k ks] eqn:Ef.
  - split; [congruence|]. intros (t & r & E & _ & _ & Hin & Hv). injection E; intros; subst.
    rewrite Er in Hin. assert (In r (filter xy_valid (r0 :: rs))) as Hf
      by (apply filter_In; auto).
    rewrite Ef in Hf. destruct Hf.
  - split; [|congruence]. intros _. exists tel, k.
    assert (Hk : In k (filter xy_valid (r0 :: rs))) by (rewrite Ef; left; reflexivity).
    apply filter_In in Hk as [Hk Hv]. rewrite Er. repeat split; auto.
Qed.

Lemma lap_frame_nonempty (drv : string) (lp : lap_row) f :
  lap_frame drv lp = Some f -> f <> [].
Proof.
  unfold lap_frame. destruct (lap_telemetry lp) as [tel|]; [|discriminate].
  destruct (tel_rows tel); [discriminate|].
  destruct (negb (tel_has_XY tel)); [discriminate|].
  destruct (negb (tel_time_ok tel)); [discriminate|].
  destruct (filter xy_valid _); [discriminate|].
  intro E. injection E as <-. simpl. discriminate.
Qed.

Lemma filter_some_nil {A} (l : list (option A)) :
  filter_some l = [] <-> forall o, In o l -> o = None.
Proof.
  induction l as [|[a|] t IH]; simpl.
  - split; [intros _ o []|reflexivity].
  - split; [discriminate|]. intro H. specialize (H (Some a) (or_introl eq_refl)). discriminate.
  - rewrite IH. split; [intros H o [<-|Ho]; auto|intros H o Ho; auto].
Qed.

Lemma flat_map_nil {A B} (f : A -> list B) (l : list A) :
  flat_map f l = [] <-> forall x, In x l -> f x = [].
Proof.
  induction l as [|h t IH]; simpl.
  - split; [intros _ x []|reflexivity].
  - split.
    + intro E. apply app_eq_nil in E as [H1 H2].
      intros x [<-|Hx]; [exact H1|]. apply IH; assumption.
    + intro H. rewrite H by (left; reflexivity). simpl.
      apply IH. intros x Hx. apply H. right; exact Hx.
Qed.

Lemma collect_rows_nil (ls : list lap_row) :
  collect_rows ls = [] <-> ~ exists lp, In lp ls /\ lap_valid lp.
Proof.
  unfold collect_rows. rewrite flat_map_nil. split.
  - intros H (lp & Hin & Hv).
    assert (Hd : In (lap_Driver lp) (unique (map lap_Driver ls)))
      by (apply unique_in, in_map, Hin).
    specialize (H _ Hd). rewrite filter_some_nil in H.
    apply (lap_frame_some_iff (lap_Driver lp) lp) in Hv. apply Hv, H.
    apply in_map, filter_In. split; [exact Hin|apply String.eqb_refl].
  - intros H drv _. apply filter_some_nil. intros o Ho.
    apply in_map_iff in Ho as (lp & <- & Hlp). apply filter_In in Hlp as [Hlp _].
    destruct (lap_frame drv lp) eqn:E; [|reflexivity]. exfalso. apply H.
    exists lp. split; [exact Hlp|]. apply (lap_frame_some_iff drv). congruence.
Qed.

(** C8: the builder returns [None] exactly when no lap of the session
    contributes a row with a valid position and a converted time, and
    [load_data] then stops with an error instead of launching the
    viewer. *)
Theorem builder_none_iff_no_valid_sample (sort_values : list sample -> list sample)
  (sess : session) :
  (collect_session_telemetry sort_values sess = None <-> ~ valid_sample_exists sess)
  /\ (load_data sort_values sess = Load_error "No telemetry data found"
      <-> collect_session_telemetry sort_values sess = None)
  /\ (forall tl, load_data sort_values sess = Finish_loading tl
                 <-> collect_session_telemetry sort_values sess = Some tl).
Proof.
  split; [|split].
  - unfold collect_session_telemetry, valid_sample_exists.
    destruct (laps sess) as [ls|] eqn:El.
    + destruct ls as [|l0 ls'].
      * split; [|reflexivity]. intros _ (ls & lp & E & Hin & _).
        injection E as <-. destruct Hin.
      * destruct (collect_rows (l0 :: ls')) eqn:Er.
        -- apply collect_rows_nil in Er. split; [|reflexivity]. intros _ (ls & lp & E & Hin & Hv).
           injection E as <-. apply Er. eauto.
        -- split; [discriminate|]. intro H. exfalso.
           assert (collect_rows (l0 :: ls') = []) as Hn.
           { apply collect_rows_nil. intros (lp & Hin & Hv). apply H. eauto. }
           congruence.
    + split; [|reflexivity]. intros _ (ls & lp & E & _). discriminate.
  - unfold load_data. destruct (collect_session_telemetry sort_values sess);
      split; congruence.
  - intro tl. unfold load_data. destruct (collect_session_telemetry sort_values sess);
      split; congruence.
Qed.

(** ** Timeline Builder: normalized and sorted timeline *)

Lemma filter_some_in {A} (l : list (option A)) (a : A) :
  In a (filter_some l) <-> In (Some a) l.
Proof.
  induction l as [|[b|] t IH]; simpl; [tauto| |].
  - rewrite IH. split; intros [H|H]; auto; left; congruence.
  - rewrite IH. split; [auto|]. intros [H|H]; [discriminate|exact H].
Qed.

Lemma collect_rows_nonempty (ls : list lap_row) (r : list sample) :
  In r (collect_rows ls) -> r <> [].
Proof.
  unfold collect_rows. intro H. apply in_flat_map in H as (drv & _ & H).
  apply filter_some_in, in_map_iff in H as (lp & E & _).
  exact (lap_frame_nonempty drv lp r E).
Qed.

Lemma normalize_time_min (full : list sample) :
  full <> [] ->
  (exists s, In s (normalize_time full) /\ s_time s == 0)
  /\ (forall s, In s (normalize_time full) -> 0 <= s_time s).
Proof.
  intro Hne. unfold normalize_time.
  assert (Hm : map s_time full <> []) by (destruct full; [congruence|discriminate]).
  destruct (list_min_some _ Hm) as [gm E]. rewrite E. simpl.
  apply list_min_spec in E as [Hin Hall]. split.
  - apply in_map_iff in Hin as (s0 & Es & Hs0).
    exists (shift_time gm s0). split; [apply in_map, Hs0|]. simpl. rewrite Es. ring.
  - intros s Hs. apply in_map_iff in Hs as (s0 & <- & Hs0). simpl.
    specialize (Hall (s_time s0) (in_map _ _ _ Hs0)). lra.
Qed.

Lemma list_min_zero (l : list sample) :
  (exists s, In s l /\ s_time s == 0) -> (forall s, In s l -> 0 <= s_time s) ->
  exists m, list_min (map s_time l) = Some m /\ m == 0.
Proof.
  intros (s0 & Hs0 & E0) Hall.
  assert (Hm : map s_time l <> []) by (destruct l; [destruct Hs0|discriminate]).
  destruct (list_min_some _ Hm) as [m Em]. exists m. split; [exact Em|].
  apply list_min_spec in Em as [Hin Hle].
  specialize (Hle _ (in_map _ _ _ Hs0)).
  apply in_map_iff in Hin as (s1 & <- & Hs1). specialize (Hall s1 Hs1). lra.
Qed.

Section BuilderSorted.
(** The contract of [sort_values('time')]: it returns a permutation of
    its rows, ascending by time. *)
Variable sort_values : list sample -> list sample.
Hypothesis sort_perm : forall l, Permutation l (sort_values l).
Hypothesis sort_sorted :
  forall l, Sorted (fun a b => s_time a <= s_time b) (sort_values l).

(** C1 (amended): a timeline returned by the builder has minimum time
    0, is sorted ascending by time and is a permutation of the
    time-shifted rows; the relative order of rows with equal time is
    whatever the library sort yields. *)
Theorem builder_timeline_normalized_sorted (sess : session) (tl : list sample)
  (Hc : collect_session_telemetry sort_values sess = Some tl) :
  (exists m, list_min (map s_time tl) = Some m /\ m == 0)
  /\ Sorted (fun a b => s_time a <= s_time b) tl
  /\ exists ls, laps sess = Some ls
                /\ Permutation (normalize_time (concat (collect_rows ls))) tl.
Proof.
  unfold collect_session_telemetry in Hc.
  destruct (laps sess) as [[|l0 ls']|] eqn:El; try discriminate.
  destruct (collect_rows (l0 :: ls')) as [|r rs] eqn:Er; [discriminate|].
  injection Hc as <-.
  assert (Hne : concat (r :: rs) <> []).
  { assert (r <> []) as Hr by (apply (collect_rows_nonempty (l0 :: ls')); rewrite Er; left; reflexivity).
    simpl. destruct r; [congruence|discriminate]. }
  destruct (normalize_time_min _ Hne) as [Hz Hpos].
  split; [|split].
  - apply list_min_zero.
    + destruct Hz as (s & Hs & E). exists s. split; [|exact E].
      eapply Permutation_in; [apply sort_perm|exact Hs].
    + intros s Hs. apply Hpos.
      eapply Permutation_in; [symmetry; apply sort_perm|exact Hs].
  - apply sort_sorted.
  - exists (l0 :: ls'). split; [reflexivity|]. rewrite Er. apply sort_perm.
Qed.
End BuilderSorted.

(** C1: with pandas' default [sort_values('time')] (numpy's unstable
    quicksort argsort), 18 rows of one lap sharing the time 5 come out
    in the order of [X] 0, 15, 14, ..., 1, 16, 17: rows with equal time
    do not keep their pre-sort relative order. *)
Theorem builder_sort_not_stable :
  exists tl, collect_session_telemetry np_sort_values tie_session = Some tl
    /\ map s_time tl = repeat 0 18
    /\ map s_x tl = [0; 15; 14; 13; 12; 11; 10; 9; 8; 7; 6; 5; 4; 3; 2; 1; 16; 17]
    /\ ~ stable_by s_time (normalize_time (concat (collect_rows tie_laps))) tl.
Proof.
  eexists. split; [vm_compute; reflexivity|].
  split; [vm_compute; reflexivity|]. split; [vm_compute; reflexivity|].
  intro H. specialize (H 0). vm_compute in H. discriminate.
Qed.

Lemma builder_timeline_normalized_sorted_witness :
  collect_session_telemetry stable_sort_values tie_session
    = Some (stable_sort_values (normalize_time (concat (collect_rows tie_laps))))
  /\ (exists m, list_min (map s_time (stable_sort_values (normalize_time (concat (collect_rows tie_laps))))) = Some m /\ m == 0)
  /\ Sorted (fun a b => s_time a <= s_time b)
       (stable_sort_values (normalize_time (concat (collect_rows tie_laps))))
  /\ exists ls, laps tie_session = Some ls
       /\ Permutation (normalize_time (concat (collect_rows ls)))
            (stable_sort_values (normalize_time (concat (collect_rows tie_laps)))).
Proof.
  split; [reflexivity|].
  apply (builder_timeline_normalized_sorted stable_sort_values
           (fun l => stable_sort_perm s_time l) (fun l => stable_sort_sorted s_time l)
           tie_session).
  reflexivity.
Defined.

(** ** Standings engine *)

Lemma Sorted_weaken {A} (R R' : A -> A -> Prop) (l : list A) :
  (forall a b, R a b -> R' a b) -> Sorted R l -> Sorted R' l.
Proof.
  intros H Hs. induction Hs as [|x l Hl IH Hh]; constructor; [exact IH|].
  destruct Hh; constructor. apply H. assumption.
Qed.

Lemma Qeq_bool_opp (a k : Q) : Qeq_bool (- a) (- k) = Qeq_bool a k.
Proof.
  destruct (Qeq_bool a k) eqn:E.
  - apply Qeq_bool_iff in E. apply Qeq_bool_iff. lra.
  - destruct (Qeq_bool (- a) (- k)) eqn:E'; [|reflexivity].
    apply Qeq_bool_iff in E'. assert (a == k) as H by lra.
    apply Qeq_bool_iff in H. congruence.
Qed.


Lemma progress_order_props (st : list (string * stats)) :
  Permutation st (progress_order st)
  /\ Sorted (fun a b => st_progress (snd b) <= st_progress (snd a)) (progress_order st)
  /\ stable_by (fun e => st_progress (snd e)) st (progress_order st).
Proof.
  unfold progress_order. rewrite py_sorted_reverse. split; [|split].
  - exact (stable_sort_perm (fun e => - st_progress (snd e)) st).
  - eapply Sorted_weaken; [|exact (stable_sort_sorted (fun e => - st_progress (snd e)) st)].
    intros a b H. simpl in H. lra.
  - intro k. pose proof (stable_sort_stable (fun e => - st_progress (snd e)) st (- k)) as H.
    simpl in H. rewrite !(filter_ext _ _ (fun x => Qeq_bool_opp (st_progress (snd x)) k)) in H.
    exact H.
Qed.


Lemma fold_maxZ_spec (l : list Z) (acc : Z) :
  let m := fold_left Z.max l acc in
  (m = acc \/ In m l) /\ (acc <= m)%Z /\ (forall z, In z l -> (z <= m)%Z).
Proof.
  revert acc; induction l as [|h t IH]; intro acc; simpl.
  - split; [left; reflexivity|]. split; [lia|]. intros z [].
  - destruct (IH (Z.max acc h)) as [Hin [Hle Hall]].
    set (m := fold_left Z.max t (Z.max acc h)) in *.
    split; [|split; [lia|]].
    + destruct Hin as [E|E]; [|right; right; exact E].
      destruct (Z.max_spec acc h) as [[_ E']|[_ E']]; rewrite E' in E; auto.
    + intros z [<-|Hz]; [lia|auto].
Qed.

Lemma list_max_Z_spec (l : list Z) m :
  list_max_Z l = Some m -> In m l /\ (forall z, In z l -> (z <= m)%Z).
Proof.
  destruct l as [|h t]; simpl; intro E; [discriminate|]. injection E as <-.
  destruct (fold_maxZ_spec t h) as [Hin [Hle Hall]].
  split; [destruct Hin as [E|E]; [left; symmetry; exact E|right; exact E]|].
  intros z [<-|Hz]; auto.
Qed.

(** [current_lap] is the largest lap among the rows with time <= sim_time,
    and 0 when no row has been reached. *)
Lemma current_lap_spec (tl : list sample) (sim : Q) :
  (forall s, In s tl -> s_time s <= sim -> (s_lap s <= current_lap tl sim)%Z)
  /\ ((exists s, In s tl /\ s_time s <= sim /\ s_lap s = current_lap tl sim)
      \/ ((forall s, In s tl -> sim < s_time s) /\ current_lap tl sim = 0%Z)).
Proof.
  unfold current_lap.
  set (f := filter (fun s => Qle_bool (s_time s) sim) tl).
  assert (Hf : forall s, In s f <-> In s tl /\ s_time s <= sim).
  { intro s. unfold f. rewrite filter_In, Qle_bool_iff. tauto. }
  destruct (list_max_Z (map s_lap f)) as [m|] eqn:E; simpl.
  - apply list_max_Z_spec in E as [Hin Hall]. split.
    + intros s Hs Ht. apply Hall, in_map, Hf. auto.
    + left. apply in_map_iff in Hin as (s & Es & Hs). apply Hf in Hs as [Hs Ht].
      exists s. auto.
  - assert (Hnil : f = []) by (destruct f; [reflexivity|discriminate]).
    split.
    + intros s Hs Ht. assert (In s f) as H by (apply Hf; auto). rewrite Hnil in H. destruct H.
    + right. split; [|reflexivity]. intros s Hs.
      destruct (Qlt_le_dec sim (s_time s)) as [H|H]; [exact H|].
      assert (In s f) as H' by (apply Hf; auto). rewrite Hnil in H'. destruct H'.
Qed.

Lemma leaderboard_fields (sort_values : list sample -> list sample) (tl : list sample)
  (total_laps : Z) (positions : list (string * Q)) (sim : Q) :
  let fr := leaderboard sort_values tl total_laps positions sim in
  fr_finished fr = (total_laps <=? current_lap tl sim)%Z
  /\ fr_ranked fr = standings (current_lap tl sim) total_laps positions
                      (driver_stats sort_values tl sim)
  /\ fr_gaps fr = gap_labels 1 (fst (leader_of (fr_ranked fr)))
                    (snd (leader_of (fr_ranked fr))) (fr_ranked fr).
Proof.
  unfold leaderboard.
  destruct (leader_of (standings (current_lap tl sim) total_laps positions
                         (driver_stats sort_values tl sim))) as [lt ll] eqn:E.
  simpl. rewrite E. auto.
Qed.



Lemma unique_nodup_acc (l acc : list string) :
  NoDup acc ->
  NoDup (fold_left (fun acc d => if existsb (String.eqb d) acc then acc else acc ++ [d]) l acc).
Proof.
  revert acc; induction l as [|h t IH]; intros acc H; simpl; [exact H|].
  apply IH. destruct (existsb (String.eqb h) acc) eqn:E; [exact H|].
  apply Permutation_NoDup with (h :: acc); [apply Permutation_cons_append|].
  constructor; [|exact H]. intro Hin.
  assert (existsb (String.eqb h) acc = true) as E'.
  { apply existsb_exists. exists h. split; [exact Hin|apply String.eqb_refl]. }
  congruence.
Qed.

Lemma unique_nodup (l : list string) : NoDup (unique l).
Proof. apply unique_nodup_acc. constructor. Qed.

Lemma filter_some_pairs {A B} (f : A -> option (A * B)) (ds : list A) :
  (forall d, In d ds -> exists x, f d = Some (d, x)) ->
  map fst (filter_some (map f ds)) = ds.
Proof.
  induction ds as [|d t IH]; intro H; simpl; [reflexivity|].
  destruct (H d (or_introl eq_refl)) as [x E]. rewrite E. simpl.
  rewrite IH; [reflexivity|]. intros d' Hd'. apply H. right. exact Hd'.
Qed.

Section Ranking.
(** [sort_values('time')] returns a permutation of its rows. *)
Variable sort_values : list sample -> list sample.
Hypothesis sort_perm : forall l, Permutation l (sort_values l).

(** Every driver of the timeline has a snapshot, in [drivers_of] order. *)
Lemma driver_stats_drivers (tl : list sample) (sim : Q) :
  map fst (driver_stats sort_values tl sim) = drivers_of tl.
Proof.
  unfold driver_stats. apply filter_some_pairs. intros d Hd.
  unfold drivers_of in Hd. apply unique_in, in_map_iff in Hd as (s & Es & Hs).
  destruct (driver_track sort_values tl d) as [|s0 rest] eqn:Et.
  - exfalso. unfold driver_track in Et.
    assert (In s (sort_values (filter (fun s => String.eqb (s_driver s) d) tl))) as H.
    { eapply Permutation_in; [apply sort_perm|]. apply filter_In.
      split; [exact Hs|]. apply String.eqb_eq. exact Es. }
    rewrite Et in H. destruct H.
  - simpl. eexists. reflexivity.
Qed.

(** C5 (amended): in the in-progress regime the ranked list holds each
    driver with telemetry exactly once, ordered by descending
    progress_score; drivers with equal progress_score keep the order of
    [driver_stats], i.e. the order of first appearance in the
    timeline, not an order by driver identifier. *)
Theorem ranking_in_progress (tl : list sample) (total_laps : Z)
  (positions : list (string * Q)) (sim : Q)
  (Hprog : fr_finished (leaderboard sort_values tl total_laps positions sim) = false) :
  let ranked := fr_ranked (leaderboard sort_values tl total_laps positions sim) in
  let st := driver_stats sort_values tl sim in
  ranked = progress_order st
  /\ Permutation st ranked
  /\ Sorted (fun a b => st_progress (snd b) <= st_progress (snd a)) ranked
  /\ stable_by (fun e => st_progress (snd e)) st ranked
  /\ map fst st = drivers_of tl
  /\ NoDup (map fst ranked)
  /\ (forall d, In d (map fst ranked) <-> exists s, In s tl /\ s_driver s = d).
Proof.
  intros ranked st.
  destruct (leaderboard_fields sort_values tl total_laps positions sim) as [Hf [Hr _]].
  assert (Hrk : ranked = progress_order st).
  { unfold ranked. rewrite Hr. unfold standings. rewrite <- Hf, Hprog. reflexivity. }
  destruct (progress_order_props st) as [Hp [Hs Hst]].
  rewrite <- Hrk in Hp, Hs, Hst.
  assert (Hd : map fst st = drivers_of tl) by apply driver_stats_drivers.
  assert (Hpm : Permutation (drivers_of tl) (map fst ranked))
    by (rewrite <- Hd; apply Permutation_map, Hp).
  split; [exact Hrk|]. split; [exact Hp|]. split; [exact Hs|]. split; [exact Hst|].
  split; [exact Hd|]. split.
  - eapply Permutation_NoDup; [exact Hpm|]. apply unique_nodup.
  - intro d. split; intro H.
    + apply (Permutation_in _ (Permutation_sym Hpm)) in H.
      unfold drivers_of in H. apply unique_in, in_map_iff in H as (s & Es & Hs').
      eauto.
    + destruct H as (s & Hs' & Es). apply (Permutation_in _ Hpm).
      unfold drivers_of. apply unique_in, in_map_iff. eauto.
Qed.
End Ranking.

(** C5: two sessions with the same two drivers, both on lap 1 at time 0
    with equal progress_score, in the in-progress regime: the ranking is
    "B", "A" in one and "A", "B" in the other, following the order in
    which the drivers first appear, not their identifiers. *)
Theorem tie_order_not_by_driver :
  exists tl1 tl2,
    collect_session_telemetry np_sort_values tie_session_BA = Some tl1
    /\ collect_session_telemetry np_sort_values tie_session_AB = Some tl2
    /\ fr_finished (leaderboard np_sort_values tl1 2 [] 0) = false
    /\ fr_finished (leaderboard np_sort_values tl2 2 [] 0) = false
    /\ map (fun e => st_progress (snd e)) (fr_ranked (leaderboard np_sort_values tl1 2 [] 0))
       = [1000; 1000]
    /\ map (fun e => st_progress (snd e)) (fr_ranked (leaderboard np_sort_values tl2 2 [] 0))
       = [1000; 1000]
    /\ map fst (fr_ranked (leaderboard np_sort_values tl1 2 [] 0)) = ["B"; "A"]%string
    /\ map fst (fr_ranked (leaderboard np_sort_values tl2 2 [] 0)) = ["A"; "B"]%string.
Proof.
  eexists _, _. split; [vm_compute; reflexivity|]. split; [vm_compute; reflexivity|].
  repeat split; vm_compute; reflexivity.
Qed.

(** C3: with a negative Distance the lap does not dominate: "A" on
    lap 2 at Distance -2000 scores 0 while "B" on lap 1 scores 1000,
    although the margin 1000 exceeds every distance of the timeline. *)
Theorem progress_lap_not_dominant :
  exists tl sa sb,
    collect_session_telemetry np_sort_values neg_distance_session = Some tl
    /\ driver_stats np_sort_values tl 0 = [("A"%string, sa); ("B"%string, sb)]
    /\ lap_distance_margin tl == 1000
    /\ st_distance sa == -2000
    /\ (st_lap sb < st_lap sa)%Z
    /\ st_progress sa < st_progress sb.
Proof.
  eexists _, _, _. split; [vm_compute; reflexivity|].
  split; [vm_compute; reflexivity|].
  repeat split; vm_compute; reflexivity.
Qed.

(** ** Gap labels *)

Lemma gap_labels_nth (lt : Q) (ll : Z) (l : list (string * stats)) (pos i : nat) :
  (i < List.length l)%nat ->
  nth i (gap_labels pos lt ll l) ""%string
  = gap_str (pos + i) lt ll (snd (nth i l default_entry)).
Proof.
  revert pos i; induction l as [|[d info] t IH]; intros pos i Hi; simpl in *; [lia|].
  destruct i as [|i]; simpl.
  - rewrite Nat.add_0_r. reflexivity.
  - rewrite IH by lia. f_equal. lia.
Qed.

Lemma gap_str_same_lap (pos : nat) (lt : Q) (info : stats) :
  pos <> 1%nat ->
  gap_str pos lt (st_lap info) info = (" +" ++ fmt_time (Qmax 0 (lt - st_time info)))%string.
Proof.
  intro Hp. unfold gap_str. rewrite Z.eqb_refl.
  apply Nat.eqb_neq in Hp. rewrite Hp.
  destruct (Qltb (lt - st_time info) 0) eqn:E1; simpl; [|reflexivity].
  destruct (Qltb (- (1 # 1000)) (lt - st_time info)); [|reflexivity].
  apply Qltb_true in E1.
  destruct (Qmax_cases 0 (lt - st_time info)) as [[_ E]|[H _]]; [|lra].
  rewrite E. reflexivity.
Qed.

(** C6 (amended): the label of the entry at 0-based index i of a frame's
    ranking. The leader gets none. An entry on the leader's lap gets
    " +" followed by [fmt_time (max 0 (leader.time - entry.time))],
    hence " +0:00.000" for a difference in (-0.001, 0]. An entry on an
    earlier lap gets " +1 lap" or " +N laps", and a non-positive lap
    difference gives the empty label. *)
Theorem gap_label_cases (sort_values : list sample -> list sample) (tl : list sample)
  (total_laps : Z) (positions : list (string * Q)) (sim : Q) (i : nat)
  (Hi : (i < List.length (fr_ranked (leaderboard sort_values tl total_laps positions sim)))%nat) :
  let fr := leaderboard sort_values tl total_laps positions sim in
  let info := snd (nth i (fr_ranked fr) default_entry) in
  let lt := fst (leader_of (fr_ranked fr)) in
  let ll := snd (leader_of (fr_ranked fr)) in
  let label := nth i (fr_gaps fr) ""%string in
  (i = 0%nat -> label = ""%string)
  /\ (st_lap info = ll -> i <> 0%nat ->
        label = (" +" ++ fmt_time (Qmax 0 (lt - st_time info)))%string)
  /\ (st_lap info = ll -> i <> 0%nat -> - (1 # 1000) < lt - st_time info <= 0 ->
        label = " +0:00.000"%string)
  /\ (st_lap info <> ll -> (ll - st_lap info = 1)%Z -> label = " +1 lap"%string)
  /\ (st_lap info <> ll -> (1 < ll - st_lap info)%Z ->
        label = (" +" ++ Z_to_string (ll - st_lap info) ++ " laps")%string)
  /\ (st_lap info <> ll -> (ll - st_lap info <= 0)%Z -> label = ""%string).
Proof.
  intros fr info lt ll label.
  destruct (leaderboard_fields sort_values tl total_laps positions sim) as [_ [_ Hg]].
  fold fr in Hg, Hi.
  assert (Hl : label = gap_str (S i) lt ll info).
  { unfold label. rewrite Hg. apply gap_labels_nth. exact Hi. }
  rewrite Hl. clear Hl label Hg.
  assert (Hdiff : st_lap info <> ll ->
                  gap_str (S i) lt ll info
                  = (let lap_diff := (ll - st_lap info)%Z in
                     if (lap_diff <=? 0)%Z then ""%string
                     else if (lap_diff =? 1)%Z then " +1 lap"%string
                     else (" +" ++ Z_to_string lap_diff ++ " laps")%string)).
  { intro Hne. unfold gap_str. apply Z.eqb_neq in Hne. rewrite Hne. reflexivity. }
  split; [|split; [|split; [|split; [|split]]]].
  - intros ->. unfold info, ll.
    destruct (fr_ranked fr) as [|[d0 i0] rest]; [simpl in Hi; lia|].
    simpl. unfold gap_str. rewrite Z.eqb_refl. reflexivity.
  - intros Hlap Hi0. rewrite <- Hlap. apply gap_str_same_lap. lia.
  - intros Hlap Hi0 Hrange. rewrite <- Hlap. rewrite gap_str_same_lap by lia.
    destruct (Qmax_cases 0 (lt - st_time info)) as [[_ E]|[H _]]; [|lra].
    rewrite E. reflexivity.
  - intros Hne H1. rewrite (Hdiff Hne). simpl.
    destruct (Z.leb_spec (ll - st_lap info) 0); [lia|]. rewrite H1. reflexivity.
  - intros Hne H1. rewrite (Hdiff Hne). simpl.
    destruct (Z.leb_spec (ll - st_lap info) 0); [lia|].
    destruct (Z.eqb_spec (ll - st_lap info) 1); [lia|]. reflexivity.
  - intros Hne H1. rewrite (Hdiff Hne). simpl.
    destruct (Z.leb_spec (ll - st_lap info) 0); [reflexivity|lia].
Qed.

(** C6: the labels carry a leading " +": a same-lap gap of 2 seconds
    reads " +0:02.000", not [fmt_time 2] = "0:02.000", and a one-lap
    deficit reads " +1 lap", not "+1 lap". *)
Theorem gap_label_prefix :
  gap_str 2 10 1 {| st_time := 8; st_lap := 1; st_distance := 0; st_progress := 0 |}
    = " +0:02.000"%string
  /\ fmt_time 2 = "0:02.000"%string
  /\ gap_str 2 10 2 {| st_time := 8; st_lap := 1; st_distance := 0; st_progress := 0 |}
    = " +1 lap"%string
  /\ gap_str 2 10 1 {| st_time := 8; st_lap := 1; st_distance := 0; st_progress := 0 |}
    <> fmt_time 2
  /\ gap_str 2 10 2 {| st_time := 8; st_lap := 1; st_distance := 0; st_progress := 0 |}
    <> "+1 lap"%string.
Proof.
  repeat split; try (vm_compute; reflexivity); vm_compute; discriminate.
Qed.

(** ** Instances of the theorems on concrete data *)

Lemma snapshot_lookup_rightmost_witness :
  sorted_q (map s_time two_sample_track) /\ two_sample_track <> []
  /\ exists i, snapshot two_sample_track 1000 3
               = Some (stats_of 1000 (nth i two_sample_track default_sample))
               /\ (i < 2)%nat /\ s_time (nth i two_sample_track default_sample) <= 3.
Proof.
  assert (Hs : sorted_q (map s_time two_sample_track)).
  { intros i j H. simpl in H.
    destruct i as [|[|i]]; destruct j as [|[|j]]; simpl; try lia; try lra.
    all: destruct i; simpl; lra. }
  assert (Hne : two_sample_track <> []) by discriminate.
  split; [exact Hs|]. split; [exact Hne|].
  destruct (snapshot_lookup_rightmost two_sample_track 1000 3 Hs Hne)
    as (i & H1 & H2 & _ & H4).
  exists i. split; [exact H1|]. split; [exact H2|].
  apply H4. simpl. lra.
Defined.

Lemma progress_score_lap_dominates_witness :
  Forall (fun s => 0 <= s_distance s) three_driver_timeline
  /\ progress_score (lap_distance_margin three_driver_timeline) 1 10
     < progress_score (lap_distance_margin three_driver_timeline) 2 5.
Proof.
  assert (Hnn : Forall (fun s => 0 <= s_distance s) three_driver_timeline).
  { repeat constructor; simpl; lra. }
  split; [exact Hnn|].
  exact (progress_score_lap_dominates three_driver_timeline
           (nth 2 three_driver_timeline default_sample)
           (nth 0 three_driver_timeline default_sample) Hnn
           (or_intror (or_intror (or_introl eq_refl))) (or_introl eq_refl)
           ltac:(simpl; lia)).
Defined.

Lemma ranking_in_progress_witness :
  fr_finished (leaderboard stable_sort_values three_driver_timeline 3 [] 1) = false
  /\ NoDup (map fst (fr_ranked (leaderboard stable_sort_values three_driver_timeline 3 [] 1)))
  /\ Permutation (driver_stats stable_sort_values three_driver_timeline 1)
       (fr_ranked (leaderboard stable_sort_values three_driver_timeline 3 [] 1)).
Proof.
  assert (Hprog : fr_finished (leaderboard stable_sort_values three_driver_timeline 3 [] 1)
                  = false) by (vm_compute; reflexivity).
  pose proof (ranking_in_progress stable_sort_values (fun l => stable_sort_perm s_time l)
                three_driver_timeline 3 [] 1 Hprog) as H.
  cbv zeta in H. destruct H as (_ & Hp & _ & _ & _ & Hn & _).
  split; [exact Hprog|]. split; [exact Hn|exact Hp].
Defined.

Lemma gap_label_cases_witness :
  (1 < List.length (fr_ranked (leaderboard stable_sort_values three_driver_timeline 3 [] 1)))%nat
  /\ nth 1 (fr_gaps (leaderboard stable_sort_values three_driver_timeline 3 [] 1)) ""%string
     = " +0:00.000"%string
  /\ nth 2 (fr_gaps (leaderboard stable_sort_values three_driver_timeline 3 [] 1)) ""%string
     = " +1 lap"%string.
Proof.
  assert (H1 : (1 < List.length (fr_ranked (leaderboard stable_sort_values
                                             three_driver_timeline 3 [] 1)))%nat)
    by (apply Nat.ltb_lt; vm_compute; reflexivity).
  assert (H2 : (2 < List.length (fr_ranked (leaderboard stable_sort_values
                                             three_driver_timeline 3 [] 1)))%nat)
    by (apply Nat.ltb_lt; vm_compute; reflexivity).
  split; [exact H1|]. split.
  - pose proof (gap_label_cases stable_sort_values three_driver_timeline 3 [] 1 1 H1) as H.
    cbv zeta in H. destruct H as (_ & _ & H & _).
    apply H; [vm_compute; reflexivity|lia|].
    split; [vm_compute; reflexivity|vm_compute; discriminate].
  - pose proof (gap_label_cases stable_sort_values three_driver_timeline 3 [] 1 2 H2) as H.
    cbv zeta in H. destruct H as (_ & _ & _ & H & _).
    apply H; [vm_compute; discriminate|vm_compute; reflexivity].
Defined.

Lemma playback_clock_bounded_witness :
  time_bounds two_sample_track = Some (0, 5)
  /\ 0 <= sim_time (run_clock 0 5 [Tick 10; Key_space; Key_left; Key_down; Key_up]) <= 5
  /\ 1 # 8 <= speed (run_clock 0 5 [Tick 10; Key_space; Key_left; Key_down; Key_up]) <= 128.
Proof.
  assert (Hb : time_bounds two_sample_track = Some (0, 5)) by (vm_compute; reflexivity).
  split; [exact Hb|].
  exact (playback_clock_bounded two_sample_track 0 5 Hb
           [Tick 10; Key_space; Key_left; Key_down; Key_up]).
Defined.

Lemma normalize_coords_total_witness :
  [1; 1] <> [] /\ [2; 3] <> []
  /\ exists nx ny, normalize_coords [1; 1] [2; 3] 800 600 50 = Some (nx, ny)
                   /\ List.length nx = 2%nat /\ List.length ny = 2%nat.
Proof.
  assert (Hx : [1; 1] <> @nil Q) by discriminate.
  assert (Hy : [2; 3] <> @nil Q) by discriminate.
  split; [exact Hx|]. split; [exact Hy|].
  exact (normalize_coords_total [1; 1] [2; 3] 800 600 50 Hx Hy).
Defined.

(* ================================================================== *)
(** * Further properties of the viewer, helpers and builder *)

Lemma string_length_app (a b : string) :
  String.length (a ++ b) = (String.length a + String.length b)%nat.
Proof. induction a as [|c a IH]; simpl; [reflexivity|]. rewrite IH. reflexivity. Qed.

Lemma string_of_list_ascii_length (l : list ascii) :
  String.length (string_of_list_ascii l) = List.length l.
Proof. induction l as [|c l IH]; simpl; [reflexivity|]. rewrite IH. reflexivity. Qed.

Lemma pad_left_length (c : ascii) (w : nat) (s : string) :
  (String.length s <= w)%nat -> String.length (pad_left c w s) = w.
Proof.
  intro H. unfold pad_left. rewrite string_length_app, string_of_list_ascii_length,
    repeat_length. lia.
Qed.

Lemma Z_to_string_length_1000 (k : Z) :
  (0 <= k < 1000)%Z -> (1 <= String.length (Z_to_string k) <= 3)%nat.
Proof.
  intro Hk.
  assert (H : forallb (fun n => let l := String.length (Z_to_string (Z.of_nat n)) in
                                (1 <=? l)%nat && (l <=? 3)%nat) (seq 0 1000) = true)
    by (vm_compute; reflexivity).
  rewrite forallb_forall in H. specialize (H (Z.to_nat k)).
  rewrite Z2Nat.id in H by lia.
  assert (In (Z.to_nat k) (seq 0 1000)) as Hin by (apply in_seq; lia).
  specialize (H Hin). apply andb_prop in H as [H1 H2].
  apply Nat.leb_le in H1, H2. lia.
Qed.

Lemma Z_to_string_length_61 (k : Z) :
  (0 <= k <= 60)%Z -> (1 <= String.length (Z_to_string k) <= 2)%nat.
Proof.
  intro Hk.
  assert (H : forallb (fun n => let l := String.length (Z_to_string (Z.of_nat n)) in
                                (1 <=? l)%nat && (l <=? 2)%nat) (seq 0 61) = true)
    by (vm_compute; reflexivity).
  rewrite forallb_forall in H. specialize (H (Z.to_nat k)).
  rewrite Z2Nat.id in H by lia.
  assert (In (Z.to_nat k) (seq 0 61)) as Hin by (apply in_seq; lia).
  specialize (H Hin). apply andb_prop in H as [H1 H2].
  apply Nat.leb_le in H1, H2. lia.
Qed.

Lemma round_half_even_bounds (q : Q) :
  (Qfloor q <= round_half_even q <= Qfloor q + 1)%Z.
Proof.
  unfold round_half_even.
  destruct (Qltb _ (1 # 2)); [lia|]. destruct (Qltb (1 # 2) _); [lia|].
  destruct (Z.even _); lia.
Qed.

Lemma fmt_06_3f_length (q : Q) :
  0 <= q -> q < 60 -> String.length (fmt_06_3f q) = 6%nat.
Proof.
  intros H0 H1. unfold fmt_06_3f.
  set (n := round_half_even (q * 1000)).
  assert (Hn : (0 <= n <= 60000)%Z).
  { pose proof (round_half_even_bounds (q * 1000)) as Hb. fold n in Hb.
    pose proof (Qfloor_resp_le 0 (q * 1000) ltac:(lra)) as Hf0.
    change (Qfloor 0) with 0%Z in Hf0.
    pose proof (Qfloor_le (q * 1000)) as Hfl.
    assert (Hlt : inject_Z (Qfloor (q * 1000)) < inject_Z 60000)
      by (apply Qle_lt_trans with (q * 1000); [exact Hfl|unfold inject_Z; lra]).
    rewrite <- Zlt_Qlt in Hlt. lia. }
  apply pad_left_length.
  rewrite string_length_app. simpl String.length.
  rewrite pad_left_length.
  - pose proof (Z_to_string_length_61 (n / 1000) ltac:(split; [apply Z.div_pos; lia|apply Z.div_le_upper_bound; lia])). lia.
  - pose proof (Z_to_string_length_1000 (n mod 1000) ltac:(apply Z.mod_pos_bound; lia)). lia.
Qed.

(** X1: [fmt_time s] is the whole number of minutes, a colon and a six-character seconds field; for s >= 0 the minutes are the floor of s/60, and a negative s is shown with 0 minutes. *)
Theorem fmt_time_shape (s : Q) :
  exists m f, fmt_time s = (Z_to_string m ++ ":" ++ f)%string
    /\ String.length f = 6%nat
    /\ (0 <= m)%Z
    /\ (s < 0 -> m = 0%Z)
    /\ (0 <= s -> inject_Z m * 60 <= s < (inject_Z m + 1) * 60).
Proof.
  unfold fmt_time.
  set (ss := if Qltb s 0 then 0 else s).
  assert (Hss : 0 <= ss /\ (s < 0 -> ss = 0) /\ (0 <= s -> ss = s)).
  { unfold ss. destruct (Qltb s 0) eqn:E.
    - apply Qltb_true in E. split; [lra|]. split; [reflexivity|intro; lra].
    - apply Qltb_false in E. split; [lra|]. split; [intro; lra|reflexivity]. }
  destruct Hss as [Hss0 [Hneg Hpos]].
  set (m := Qfloor (ss / 60)).
  pose proof (Qfloor_le (ss / 60)) as Hl. pose proof (Qlt_floor (ss / 60)) as Hu.
  fold m in Hl, Hu. rewrite inject_Z_plus in Hu. change (inject_Z 1) with 1 in Hu.
  assert (Hq : ss == (ss / 60) * 60) by (field).
  set (x := ss / 60) in *.
  exists m, (fmt_06_3f (ss - 60 * inject_Z m)). split; [reflexivity|].
  split; [apply fmt_06_3f_length; lra|].
  assert (Hm0 : (0 <= m)%Z).
  { assert (inject_Z (-1) < inject_Z m) by (change (inject_Z (-1)) with (-1); lra).
    rewrite <- Zlt_Qlt in H. lia. }
  split; [exact Hm0|]. split.
  - intro Hs. specialize (Hneg Hs).
    assert (inject_Z m < inject_Z 1) by (change (inject_Z 1) with 1; rewrite Hneg in Hq; lra).
    rewrite <- Zlt_Qlt in H. lia.
  - intro Hs. rewrite <- (Hpos Hs). lra.
Qed.

(** X2: every negative duration is formatted as 0:00.000. *)
Theorem fmt_time_negative (s : Q) : s < 0 -> fmt_time s = "0:00.000"%string.
Proof.
  intro H. unfold fmt_time.
  assert (Qltb s 0 = true) as -> by (apply Qltb_true; exact H).
  reflexivity.
Qed.

Lemma int16_hex_byte (n : nat) :
  (n < 256)%nat ->
  int16 (String (hex_char (n / 16)) (String (hex_char (n mod 16)) EmptyString))
  = Some (Z.of_nat n).
Proof.
  intro Hn.
  assert (H : forallb (fun n => match int16 (String (hex_char (n / 16))
                                             (String (hex_char (n mod 16)) EmptyString)) with
                                | Some v => Z.eqb v (Z.of_nat n)
                                | None => false end) (seq 0 256) = true)
    by (vm_compute; reflexivity).
  rewrite forallb_forall in H. specialize (H n ltac:(apply in_seq; lia)).
  destruct (int16 _); [|discriminate]. apply Z.eqb_eq in H. subst. reflexivity.
Qed.

Lemma substring_0_0 (s : string) : substring 0 0 s = EmptyString.
Proof. destruct s; reflexivity. Qed.

Lemma channel_range (v : Z) : (80 <= 80 + v mod 176 <= 255)%Z.
Proof. pose proof (Z.mod_pos_bound v 176 ltac:(lia)). lia. Qed.

(** X3: when the digest has at least three bytes, each colour channel is 80 plus the matching digest byte (read back from its two hex digits) modulo 176, so every channel lies in [80, 255]. *)
Theorem gen_color_channels (md5 : string -> list Byte.byte) (s : string)
  (H : (3 <= List.length (md5 s))%nat) :
  exists b0 b1 b2 rest,
    md5 s = b0 :: b1 :: b2 :: rest
    /\ gen_color_from_string md5 s
       = Some ((80 + Z.of_nat (Byte.to_nat b0) mod 176)%Z,
               (80 + Z.of_nat (Byte.to_nat b1) mod 176)%Z,
               (80 + Z.of_nat (Byte.to_nat b2) mod 176)%Z)
    /\ (forall r g b, gen_color_from_string md5 s = Some (r, g, b) ->
          (80 <= r <= 255)%Z /\ (80 <= g <= 255)%Z /\ (80 <= b <= 255)%Z).
Proof.
  destruct (md5 s) as [|b0 [|b1 [|b2 rest]]] eqn:E; simpl in H; try lia.
  exists b0, b1, b2, rest. split; [reflexivity|].
  assert (Hg : gen_color_from_string md5 s
       = Some ((80 + Z.of_nat (Byte.to_nat b0) mod 176)%Z,
               (80 + Z.of_nat (Byte.to_nat b1) mod 176)%Z,
               (80 + Z.of_nat (Byte.to_nat b2) mod 176)%Z)).
  { unfold gen_color_from_string. rewrite E. unfold hexdigest. cbn [flat_map app string_of_list_ascii substring].
    rewrite !substring_0_0.
    rewrite !int16_hex_byte by (pose proof (Byte.to_nat_bounded b0);
                               pose proof (Byte.to_nat_bounded b1);
                               pose proof (Byte.to_nat_bounded b2); lia).
    reflexivity. }
  split; [exact Hg|]. intros r g b Hc. rewrite Hg in Hc. injection Hc as <- <- <-.
  split; [|split]; apply channel_range.
Qed.

Lemma gen_color_channels_witness :
  (3 <= List.length ((fun _ : string => [Byte.x00; Byte.xb0; Byte.xff]) "VER"%string))%nat
  /\ gen_color_from_string (fun _ => [Byte.x00; Byte.xb0; Byte.xff]) "VER"%string
     = Some (80%Z, 80%Z, 159%Z).
Proof.
  assert (H : (3 <= List.length ((fun _ : string => [Byte.x00; Byte.xb0; Byte.xff]) "VER"%string))%nat)
    by (simpl; lia).
  split; [exact H|].
  destruct (gen_color_channels (fun _ => [Byte.x00; Byte.xb0; Byte.xff]) "VER"%string H)
    as (b0 & b1 & b2 & rest & E & Hg & _).
  rewrite Hg. injection E as <- <- <- <-. reflexivity.
Defined.

Lemma fold_clock_ok (t0 t1 : Q) (cmds : list command) (c : clock) :
  t0 <= t1 -> clock_ok t0 t1 c -> clock_ok t0 t1 (fold_left (clock_step t0 t1) cmds c).
Proof.
  intro H01. revert c; induction cmds as [|c0 cs IH]; intros c Hc; simpl; [exact Hc|].
  apply IH, clock_step_ok; assumption.
Qed.

Lemma run_clock_ok (tl : list sample) (t0 t1 : Q) (cmds : list command) :
  time_bounds tl = Some (t0, t1) -> clock_ok t0 t1 (run_clock t0 t1 cmds).
Proof.
  intro Hb. apply time_bounds_le in Hb. apply fold_clock_ok; [exact Hb|].
  unfold clock_ok; simpl; lra.
Qed.

Lemma trunc_bounds (q : Q) (a b : Z) :
  inject_Z a <= q -> q <= inject_Z b -> (a <= trunc q <= b)%Z.
Proof.
  intros Ha Hb. unfold trunc. destruct (Qle_bool 0 q) eqn:E.
  - pose proof (Qfloor_resp_le _ _ Ha) as H1. rewrite Qfloor_Z in H1.
    pose proof (Qfloor_le q) as H2.
    assert (inject_Z (Qfloor q) <= inject_Z b) as H3 by lra.
    rewrite <- Zle_Qle in H3. lia.
  - assert (Hb' : - inject_Z b <= - q) by lra.
    rewrite <- inject_Z_opp in Hb'.
    pose proof (Qfloor_resp_le _ _ Hb') as H1. rewrite Qfloor_Z in H1.
    pose proof (Qfloor_le (- q)) as H2.
    assert (inject_Z (Qfloor (- q)) <= inject_Z (- a)) as H3
      by (rewrite inject_Z_opp; lra).
    rewrite <- Zle_Qle in H3. lia.
Qed.

(** X4: at any point of playback the filled width of the progress bar lies between 0 and the bar width. *)
Theorem progress_fill_bounded (tl : list sample) (t0 t1 : Q)
  (Hb : time_bounds tl = Some (t0, t1)) (bar_w : Z) (Hw : (0 <= bar_w)%Z)
  (cmds : list command) :
  (0 <= progress_fill bar_w t0 t1 (sim_time (run_clock t0 t1 cmds)) <= bar_w)%Z.
Proof.
  destruct (run_clock_ok tl t0 t1 cmds Hb) as [[Hs0 Hs1] _].
  set (sim := sim_time (run_clock t0 t1 cmds)) in *.
  unfold progress_fill, progress_frac.
  assert (Hw' : 0 <= inject_Z bar_w) by (change 0 with (inject_Z 0); rewrite <- Zle_Qle; exact Hw).
  apply trunc_bounds; change (inject_Z 0) with 0.
  - destruct (Qltb t0 t1) eqn:E; [|lra].
    apply Qltb_true in E. apply Qmult_le_0_compat; [exact Hw'|].
    apply Qle_shift_div_l; lra.
  - destruct (Qltb t0 t1) eqn:E; [|lra].
    apply Qltb_true in E.
    assert (Hf : (sim - t0) / (t1 - t0) <= 1) by (apply Qle_shift_div_r; lra).
    assert (Hf0 : 0 <= (sim - t0) / (t1 - t0)) by (apply Qle_shift_div_l; lra).
    rewrite <- (Qmult_1_r (inject_Z bar_w)) at 2.
    rewrite (Qmult_comm (inject_Z bar_w)), (Qmult_comm (inject_Z bar_w)).
    apply Qmult_le_compat_r; assumption.
Qed.

Ltac in_levels :=
  simpl In_q; repeat (first [left; lra | right]); try lra.

Lemma speed_step_levels (t0 t1 : Q) (c : clock) (cmd : command) :
  In_q (speed c) speed_levels -> In_q (speed (clock_step t0 t1 c cmd)) speed_levels.
Proof.
  intro H. destruct cmd as [| | | | | |dt]; simpl.
  - exact H.
  - destruct (Qmin_cases 128 (speed c * 2)) as [[Hm E]|[Hm E]]; rewrite E; clear E.
    + in_levels.
    + simpl In_q in H. repeat match goal with Hx : _ \/ _ |- _ => destruct Hx as [Hx|Hx] end;
        try contradiction; in_levels.
  - unfold Qdiv; change (Qinv 2) with (1 # 2).
    destruct (Qmax_cases (1 # 8) (speed c * (1 # 2))) as [[Hm E]|[Hm E]]; rewrite E; clear E.
    + in_levels.
    + simpl In_q in H. repeat match goal with Hx : _ \/ _ |- _ => destruct Hx as [Hx|Hx] end;
        try contradiction; in_levels.
  - destruct (playing c); exact H.
  - destruct (playing c); exact H.
  - exact H.
  - destruct (playing c); exact H.
Qed.

(** X5: the playback speed is always a power of two between 1/8 and 128. *)
Theorem speed_power_of_two (t0 t1 : Q) (cmds : list command) :
  exists k, (-3 <= k <= 7)%Z /\ speed (run_clock t0 t1 cmds) == Qpower 2 k.
Proof.
  assert (H : In_q (speed (run_clock t0 t1 cmds)) speed_levels).
  { unfold run_clock. assert (Hi : In_q (speed (clock_init t0)) speed_levels) by in_levels.
    revert Hi. generalize (clock_init t0).
    induction cmds as [|c0 cs IH]; intros c Hc; simpl; [exact Hc|].
    apply IH, speed_step_levels, Hc. }
  simpl In_q in H.
  repeat match goal with Hx : _ \/ _ |- _ => destruct Hx as [Hx|Hx] end; try contradiction.
  - exists (-3)%Z. split; [lia|rewrite H; reflexivity].
  - exists (-2)%Z. split; [lia|rewrite H; reflexivity].
  - exists (-1)%Z. split; [lia|rewrite H; reflexivity].
  - exists 0%Z. split; [lia|rewrite H; reflexivity].
  - exists 1%Z. split; [lia|rewrite H; reflexivity].
  - exists 2%Z. split; [lia|rewrite H; reflexivity].
  - exists 3%Z. split; [lia|rewrite H; reflexivity].
  - exists 4%Z. split; [lia|rewrite H; reflexivity].
  - exists 5%Z. split; [lia|rewrite H; reflexivity].
  - exists 6%Z. split; [lia|rewrite H; reflexivity].
  - exists 7%Z. split; [lia|rewrite H; reflexivity].
Qed.

Lemma clock_step_no_rewind (t0 t1 : Q) (c : clock) (cmd : command) :
  clock_ok t0 t1 c -> cmd <> Key_left -> (forall dt, cmd = Tick dt -> 0 <= dt) ->
  sim_time c <= sim_time (clock_step t0 t1 c cmd).
Proof.
  intros [[Hs0 Hs1] [Hv0 Hv1]] Hl Ht.
  destruct cmd as [| | | | | |dt]; simpl; try lra.
  - destruct (playing c); simpl; [lra|]. qcase; lra.
  - congruence.
  - specialize (Ht dt eq_refl). destruct (playing c); simpl; [|lra].
    assert (Hp : 0 <= dt * speed c) by (apply Qmult_le_0_compat; lra).
    set (p := dt * speed c) in *.
    destruct (Qltb t1 (sim_time c + p)) eqn:E1;
      [apply Qltb_true in E1 | apply Qltb_false in E1]; qcase; lra.
Qed.

(** X6: commands without a left-arrow press and with non-negative frame times never move the simulation time backwards. *)
Theorem playback_never_rewinds (tl : list sample) (t0 t1 : Q)
  (Hb : time_bounds tl = Some (t0, t1)) (cmds1 cmds2 : list command)
  (Hno : Forall (fun cmd => cmd <> Key_left /\ forall dt, cmd = Tick dt -> 0 <= dt) cmds2) :
  sim_time (run_clock t0 t1 cmds1) <= sim_time (run_clock t0 t1 (cmds1 ++ cmds2)).
Proof.
  pose proof (run_clock_ok tl t0 t1 cmds1 Hb) as Hok.
  pose proof (time_bounds_le _ _ _ Hb) as H01.
  unfold run_clock in *. rewrite fold_left_app.
  revert Hok. generalize (fold_left (clock_step t0 t1) cmds1 (clock_init t0)).
  induction Hno as [|cmd cs [Hl Ht] _ IH]; intros c Hc; simpl; [lra|].
  apply Qle_trans with (sim_time (clock_step t0 t1 c cmd)).
  - apply clock_step_no_rewind; assumption.
  - apply IH, clock_step_ok; assumption.
Qed.

Lemma handle_event_clock (t0 t1 : Q) (u : ui_state) (ev : pg_event) :
  ui_clock (handle_event t0 t1 u ev) = clock_step t0 t1 (ui_clock u) (command_of ev).
Proof.
  destruct ev as [|k|]; simpl; try reflexivity.
  destruct k; simpl; try reflexivity; destruct (playing (ui_clock u)); reflexivity.
Qed.

Lemma fold_handle_clock (t0 t1 : Q) (evs : list pg_event) (u : ui_state) :
  ui_clock (fold_left (handle_event t0 t1) evs u)
  = fold_left (clock_step t0 t1) (map command_of evs) (ui_clock u).
Proof.
  revert u; induction evs as [|ev evs IH]; intro u; simpl; [reflexivity|].
  rewrite IH, handle_event_clock. reflexivity.
Qed.

Lemma frame_step_clock_fold (t0 t1 : Q) (u : ui_state) (evs : list pg_event) (dt : Q) :
  ui_clock (frame_step t0 t1 u evs dt)
  = fold_left (clock_step t0 t1) (map command_of evs ++ [Tick dt]) (ui_clock u).
Proof.
  unfold frame_step. rewrite fold_left_app, <- fold_handle_clock. simpl.
  destruct (playing (ui_clock (fold_left (handle_event t0 t1) evs u))); reflexivity.
Qed.

Lemma handle_event_point_size (t0 t1 : Q) (u : ui_state) (ev : pg_event) :
  (2 <= point_size u <= 30)%Z -> (2 <= point_size (handle_event t0 t1 u ev) <= 30)%Z.
Proof.
  intro H. destruct ev as [|k|]; simpl; try exact H.
  destruct k; simpl; try exact H; try lia;
    destruct (playing (ui_clock u)); simpl; exact H.
Qed.

Definition ui_ok (t0 t1 : Q) (u : ui_state) : Prop :=
  clock_ok t0 t1 (ui_clock u) /\ (2 <= point_size u <= 30)%Z.

Lemma frame_step_ok (t0 t1 : Q) (u : ui_state) (evs : list pg_event) (dt : Q) :
  t0 <= t1 -> ui_ok t0 t1 u -> ui_ok t0 t1 (frame_step t0 t1 u evs dt).
Proof.
  intros H01 [Hc Hp]. split.
  - rewrite frame_step_clock_fold. apply fold_clock_ok; assumption.
  - unfold frame_step.
    assert (Hf : (2 <= point_size (fold_left (handle_event t0 t1) evs u) <= 30)%Z).
    { revert u Hc Hp. induction evs as [|ev evs IH]; intros u Hc Hp; simpl; [exact Hp|].
      apply IH; [rewrite handle_event_clock; apply clock_step_ok; assumption|].
      apply handle_event_point_size, Hp. }
    destruct (playing _); exact Hf.
Qed.

(** X8: from the initial state with a default point size in [2, 30], the main loop keeps the simulation time within the timeline's bounds, the speed within [1/8, 128] and the point size within [2, 30]. *)
Theorem main_loop_bounded (tl : list sample) (t0 t1 : Q)
  (Hb : time_bounds tl = Some (t0, t1)) (default_point_size : Z)
  (Hd : (2 <= default_point_size <= 30)%Z) (frames : list (list pg_event * Q)) :
  let u := run_frames t0 t1 (ui_init t0 default_point_size) frames in
  t0 <= sim_time (ui_clock u) <= t1
  /\ 1 # 8 <= speed (ui_clock u) <= 128
  /\ (2 <= point_size u <= 30)%Z.
Proof.
  pose proof (time_bounds_le _ _ _ Hb) as H01.
  assert (Hi : ui_ok t0 t1 (ui_init t0 default_point_size))
    by (split; [unfold clock_ok; simpl; lra|exact Hd]).
  cut (ui_ok t0 t1 (run_frames t0 t1 (ui_init t0 default_point_size) frames)).
  { intros [[Hs Hv] Hp]. auto. }
  revert Hi. generalize (ui_init t0 default_point_size).
  induction frames as [|[evs dt] fs IH]; intros u Hu; simpl; [exact Hu|].
  destruct (running u); [|exact Hu]. apply IH, frame_step_ok; assumption.
Qed.

Lemma handle_event_running (t0 t1 : Q) (u : ui_state) (ev : pg_event) :
  running (handle_event t0 t1 u ev) = if is_quit ev then false else running u.
Proof.
  destruct ev as [|k|]; simpl; try reflexivity.
  destruct k; simpl; try reflexivity; destruct (playing (ui_clock u)); reflexivity.
Qed.

Lemma fold_handle_running (t0 t1 : Q) (evs : list pg_event) (u : ui_state) :
  running (fold_left (handle_event t0 t1) evs u)
  = if existsb is_quit evs then false else running u.
Proof.
  revert u; induction evs as [|ev evs IH]; intro u; simpl; [reflexivity|].
  rewrite IH, handle_event_running. destruct (is_quit ev), (existsb is_quit evs); reflexivity.
Qed.

(** X9: a quit event (window close, Escape or q) in a frame's batch ends the loop after that frame: no later frame is processed. *)
Theorem quit_ends_loop (t0 t1 : Q) (u : ui_state) (evs : list pg_event) (dt : Q)
  (rest : list (list pg_event * Q))
  (Hq : existsb is_quit evs = true) (Hr : running u = true) :
  run_frames t0 t1 u ((evs, dt) :: rest) = frame_step t0 t1 u evs dt
  /\ running (frame_step t0 t1 u evs dt) = false.
Proof.
  assert (Hf : running (frame_step t0 t1 u evs dt) = false).
  { unfold frame_step. pose proof (fold_handle_running t0 t1 evs u) as H.
    rewrite Hq in H. destruct (playing _); simpl; exact H. }
  split; [|exact Hf]. simpl. rewrite Hr.
  destruct rest as [|[evs' dt'] rest]; simpl; [reflexivity|]. rewrite Hf. reflexivity.
Qed.

Lemma progress_fill_bounded_witness :
  time_bounds two_sample_track = Some (0, 5) /\ (0 <= 240)%Z
  /\ (0 <= progress_fill 240 0 5 (sim_time (run_clock 0 5 [Key_space; Tick 1; Key_up; Tick 1])) <= 240)%Z.
Proof.
  assert (Hb : time_bounds two_sample_track = Some (0, 5)) by (vm_compute; reflexivity).
  assert (Hw : (0 <= 240)%Z) by lia.
  split; [exact Hb|]. split; [exact Hw|].
  exact (progress_fill_bounded two_sample_track 0 5 Hb 240 Hw [Key_space; Tick 1; Key_up; Tick 1]).
Defined.

Lemma playback_never_rewinds_witness :
  time_bounds two_sample_track = Some (0, 5)
  /\ Forall (fun cmd => cmd <> Key_left /\ forall dt, cmd = Tick dt -> 0 <= dt)
       [Key_down; Tick 1; Key_right]
  /\ sim_time (run_clock 0 5 [Key_space; Tick (1 # 2)])
     <= sim_time (run_clock 0 5 ([Key_space; Tick (1 # 2)] ++ [Key_down; Tick 1; Key_right])).
Proof.
  assert (Hb : time_bounds two_sample_track = Some (0, 5)) by (vm_compute; reflexivity).
  assert (Hno : Forall (fun cmd => cmd <> Key_left /\ forall dt, cmd = Tick dt -> 0 <= dt)
                  [Key_down; Tick 1; Key_right]).
  { repeat constructor; try discriminate; intros dt E; inversion E; subst; lra. }
  split; [exact Hb|]. split; [exact Hno|].
  exact (playback_never_rewinds two_sample_track 0 5 Hb [Key_space; Tick (1 # 2)] _ Hno).
Defined.

Lemma main_loop_bounded_witness :
  time_bounds two_sample_track = Some (0, 5) /\ (2 <= 6 <= 30)%Z
  /\ let u := run_frames 0 5 (ui_init 0 6)
                [([Ev_KEYDOWN K_UP; Ev_KEYDOWN K_PLUS], 1);
                 ([Ev_KEYDOWN K_SPACE; Ev_KEYDOWN K_LEFT], 1)] in
     0 <= sim_time (ui_clock u) <= 5
     /\ 1 # 8 <= speed (ui_clock u) <= 128
     /\ (2 <= point_size u <= 30)%Z.
Proof.
  assert (Hb : time_bounds two_sample_track = Some (0, 5)) by (vm_compute; reflexivity).
  assert (Hd : (2 <= 6 <= 30)%Z) by lia.
  split; [exact Hb|]. split; [exact Hd|].
  exact (main_loop_bounded two_sample_track 0 5 Hb 6 Hd _).
Defined.

Lemma quit_ends_loop_witness :
  existsb is_quit [Ev_KEYDOWN K_UP; Ev_KEYDOWN K_q] = true
  /\ running (ui_init 0 6) = true
  /\ run_frames 0 5 (ui_init 0 6) [([Ev_KEYDOWN K_UP; Ev_KEYDOWN K_q], 1); ([Ev_KEYDOWN K_SPACE], 1)]
     = frame_step 0 5 (ui_init 0 6) [Ev_KEYDOWN K_UP; Ev_KEYDOWN K_q] 1
  /\ running (frame_step 0 5 (ui_init 0 6) [Ev_KEYDOWN K_UP; Ev_KEYDOWN K_q] 1) = false.
Proof.
  assert (Hq : existsb is_quit [Ev_KEYDOWN K_UP; Ev_KEYDOWN K_q] = true) by reflexivity.
  assert (Hr : running (ui_init 0 6) = true) by reflexivity.
  split; [exact Hq|]. split; [exact Hr|].
  exact (quit_ends_loop 0 5 (ui_init 0 6) _ 1 _ Hq Hr).
Defined.

(** ** Status and race-control lookups *)

Lemma rightmost_lookup (times : list Q) (vals : list string) (dflt : string) (sim : Q)
  (Hs : sorted_q times) :
  let idx := (Z.of_nat (searchsorted_right times sim) - 1)%Z in
  let r := if (0 <=? idx)%Z && (idx <? Z.of_nat (List.length vals))%Z
           then nth (Z.to_nat idx) vals dflt else dflt in
  ((forall j, (j < List.length times)%nat -> sim < nth j times 0) -> r = dflt)
  /\ (forall i, (i < List.length times)%nat -> nth i times 0 <= sim ->
        (forall j, (i < j < List.length times)%nat -> sim < nth j times 0) ->
        r = nth i vals dflt).
Proof.
  intros idx r.
  destruct (searchsorted_right_spec times sim Hs) as [Hr [Hle Hgt]].
  unfold r, idx. clear r idx.
  set (k := searchsorted_right times sim) in *.
  split.
  - intro Hall. destruct k as [|k'].
    + reflexivity.
    + exfalso. assert (H0 : nth 0 times 0 <= sim) by (apply Hle; lia).
      assert (H1 : sim < nth 0 times 0) by (apply Hall; lia). lra.
  - intros i Hi Hti Hright.
    assert (Hk : k = S i).
    { destruct (Nat.lt_ge_cases i k) as [H|H].
      - destruct (Nat.eq_dec k (S i)) as [E|E]; [exact E|].
        exfalso. assert (H1 : nth (S i) times 0 <= sim) by (apply Hle; lia).
        assert (H2 : sim < nth (S i) times 0) by (apply Hright; lia). lra.
      - exfalso. assert (H1 : sim < nth i times 0) by (apply Hgt; lia). lra. }
    rewrite Hk. replace (Z.of_nat (S i) - 1)%Z with (Z.of_nat i) by lia.
    rewrite Nat2Z.id.
    destruct (0 <=? Z.of_nat i)%Z eqn:E1; [|apply Z.leb_gt in E1; lia].
    destruct (Z.of_nat i <? Z.of_nat (List.length vals))%Z eqn:E2; simpl; [reflexivity|].
    apply Z.ltb_ge in E2. symmetry. apply nth_overflow. lia.
Qed.

(** X10: with status times (already aligned) in ascending order, the
    current status is the code of the latest entry at or before
    sim_time, and '1' when no entry has been reached. *)
Theorem current_status_rightmost (status_times : list Q) (status_codes : list string) (sim : Q)
  (Hs : sorted_q status_times) :
  ((forall j, (j < List.length status_times)%nat -> sim < nth j status_times 0) ->
     current_status status_times status_codes sim = "1"%string)
  /\ (forall i, (i < List.length status_times)%nat -> nth i status_times 0 <= sim ->
        (forall j, (i < j < List.length status_times)%nat -> sim < nth j status_times 0) ->
        current_status status_times status_codes sim = nth i status_codes "1"%string).
Proof.
  destruct (rightmost_lookup status_times status_codes "1"%string sim Hs) as [H1 H2].
  unfold current_status. split.
  - intro Hall. exact (H1 Hall).
  - intros i Hi Hti Hright. exact (H2 i Hi Hti Hright).
Qed.

(** X11: with message times sorted, the race-control line is the latest message at or before sim_time, truncated, and empty when there is none. *)
Theorem last_message_rightmost (message_times : list Q) (messages : list string) (sim : Q)
  (Hs : sorted_q message_times) :
  ((forall j, (j < List.length message_times)%nat -> sim < nth j message_times 0) ->
     last_message message_times messages sim = ""%string)
  /\ (forall i, (i < List.length message_times)%nat -> nth i message_times 0 <= sim ->
        (forall j, (i < j < List.length message_times)%nat -> sim < nth j message_times 0) ->
        last_message message_times messages sim = truncate_message (nth i messages ""%string)).
Proof.
  destruct (rightmost_lookup message_times messages ""%string sim Hs) as [H1 H2].
  unfold last_message, message_at. split.
  - intro Hall. rewrite H1 by exact Hall. reflexivity.
  - intros i Hi Hti Hright. rewrite (H2 i Hi Hti Hright). reflexivity.
Qed.

Lemma substring_0_length (n : nat) (s : string) :
  String.length (substring 0 n s) = Nat.min n (String.length s).
Proof.
  revert n; induction s as [|c s IH]; intro n; destruct n as [|n]; simpl; try reflexivity.
  rewrite IH. reflexivity.
Qed.

(** X12: the race-control line is at most 40 characters: a message of up to 40 characters is kept, a longer one becomes its first 37 characters followed by three dots. *)
Theorem truncate_message_shape (m : string) :
  (String.length (truncate_message m) <= 40)%nat
  /\ ((String.length m <= 40)%nat -> truncate_message m = m)
  /\ ((40 < String.length m)%nat ->
        truncate_message m = (substring 0 37 m ++ "...")%string
        /\ String.length (truncate_message m) = 40%nat
        /\ prefix (substring 0 37 m) m = true).
Proof.
  unfold truncate_message.
  destruct (40 <? String.length m)%nat eqn:E.
  - apply Nat.ltb_lt in E.
    assert (Hl : String.length (substring 0 37 m ++ "...") = 40%nat)
      by (rewrite string_length_app, substring_0_length; cbn [String.length]; lia).
    split; [lia|]. split; [lia|]. intros _. split; [reflexivity|]. split; [exact Hl|].
    clear. generalize 37%nat. induction m as [|c m IH]; intros [|n]; simpl; try reflexivity.
    destruct (Ascii.ascii_dec c c) as [_|C]; [apply IH|congruence].
  - apply Nat.ltb_ge in E. split; [exact E|]. split; [reflexivity|]. lia.
Qed.

Lemma current_lap_mono (tl : list sample) (s1 s2 : Q) :
  s1 <= s2 -> Forall (fun s => (0 <= s_lap s)%Z) tl ->
  (current_lap tl s1 <= current_lap tl s2)%Z.
Proof.
  intros H12 Hl. rewrite Forall_forall in Hl.
  destruct (current_lap_spec tl s1) as [_ [(s & Hs & Ht & E)|[_ E]]];
  destruct (current_lap_spec tl s2) as [Hle2 Hc2].
  - rewrite <- E. apply Hle2; [exact Hs|lra].
  - rewrite E. destruct Hc2 as [(s & Hs & _ & E2)|[_ E2]]; [rewrite <- E2; apply Hl, Hs|lia].
Qed.

(** X13: when every lap number is non-negative, current_lap never decreases as sim_time increases. *)
Theorem current_lap_monotone (tl : list sample) (s1 s2 : Q)
  (H12 : s1 <= s2) (Hl : Forall (fun s => (0 <= s_lap s)%Z) tl) :
  (current_lap tl s1 <= current_lap tl s2)%Z.
Proof. apply current_lap_mono; assumption. Qed.

(** X14: when every lap number is non-negative, once a frame is in the finished regime every later frame is too. *)
Theorem finished_regime_persists (sort_values : list sample -> list sample)
  (tl : list sample) (total_laps : Z) (positions : list (string * Q)) (s1 s2 : Q)
  (H12 : s1 <= s2) (Hl : Forall (fun s => (0 <= s_lap s)%Z) tl)
  (Hf : fr_finished (leaderboard sort_values tl total_laps positions s1) = true) :
  fr_finished (leaderboard sort_values tl total_laps positions s2) = true.
Proof.
  destruct (leaderboard_fields sort_values tl total_laps positions s1) as [E1 _].
  destruct (leaderboard_fields sort_values tl total_laps positions s2) as [E2 _].
  rewrite E2. rewrite E1 in Hf. apply Z.leb_le in Hf. apply Z.leb_le.
  pose proof (current_lap_mono tl s1 s2 H12 Hl). lia.
Qed.

(** ** DNF list *)

(** X16: the DNF list is always empty: every driver of the timeline gets a snapshot. *)
Theorem dnf_drivers_empty (sort_values : list sample -> list sample)
  (sort_perm : forall l, Permutation l (sort_values l)) (tl : list sample) (sim : Q) :
  dnf_drivers sort_values tl sim = [].
Proof.
  unfold dnf_drivers. rewrite (driver_stats_drivers sort_values sort_perm).
  apply filter_all_false. intros d Hd. apply negb_false_iff, existsb_exists.
  exists d. split; [exact Hd|apply String.eqb_refl].
Qed.

Lemma in_collect_rows (ls : list lap_row) (s : sample) :
  In s (concat (collect_rows ls)) ->
  exists lp f, In lp ls /\ lap_frame (lap_Driver lp) lp = Some f /\ In s f.
Proof.
  intro H. apply in_concat in H as (f & Hf & Hs).
  unfold collect_rows in Hf. apply in_flat_map in Hf as (drv & _ & Hf).
  apply filter_some_in, in_map_iff in Hf as (lp & E & Hlp).
  apply filter_In in Hlp as [Hlp Ed]. apply String.eqb_eq in Ed. subst drv.
  exists lp, f. auto.
Qed.

Lemma collect_rows_in (ls : list lap_row) (lp : lap_row) (f : list sample) (s : sample) :
  In lp ls -> lap_frame (lap_Driver lp) lp = Some f -> In s f ->
  In s (concat (collect_rows ls)).
Proof.
  intros Hlp Ef Hs. apply in_concat. exists f. split; [|exact Hs].
  unfold collect_rows. apply in_flat_map. exists (lap_Driver lp). split.
  - apply unique_in, in_map, Hlp.
  - apply filter_some_in, in_map_iff. exists lp. split; [exact Ef|].
    apply filter_In. split; [exact Hlp|apply String.eqb_refl].
Qed.

Lemma some_map_in {A B} (g : A -> B) (l : list A) (f : list B) (s : B) :
  Some (map g l) = Some f -> In s f -> exists r, In r l /\ g r = s.
Proof. intros E Hs. injection E as <-. apply in_map_iff in Hs as (r & E & Hr). eauto. Qed.

Lemma lap_frame_samples (drv : string) (lp : lap_row) (f : list sample) (s : sample) :
  lap_frame drv lp = Some f -> In s f ->
  s_driver s = drv
  /\ exists tel r, lap_telemetry lp = Some tel /\ In r (tel_rows tel) /\ xy_valid r = true
       /\ (tel_has_Distance tel = true -> s_distance s = row_Distance r)
       /\ (tel_has_Distance tel = false -> 0 <= s_distance s).
Proof.
  unfold lap_frame. destruct (lap_telemetry lp) as [tel|]; [|discriminate].
  destruct (tel_rows tel) as [|r0 rs] eqn:Er; [discriminate|].
  destruct (negb (tel_has_XY tel)); [discriminate|].
  destruct (negb (tel_time_ok tel)); [discriminate|].
  destruct (filter xy_valid (r0 :: rs)) as [|k ks] eqn:Ef; [discriminate|].
  intros E Hs. destruct (some_map_in _ _ _ _ E Hs) as (r & Hr & <-).
  assert (Hr' : In r (filter xy_valid (r0 :: rs))) by (rewrite Ef; exact Hr).
  apply filter_In in Hr' as [Hin Hv].
  split; [reflexivity|]. exists tel, r. rewrite Er.
  split; [reflexivity|]. split; [exact Hin|]. split; [exact Hv|]. cbn [s_distance].
  split; intro Hd; rewrite Hd; [reflexivity|].
  destruct (list_min_some (map row_time (k :: ks))) as [m Em]; [discriminate|].
  rewrite Em. cbn [opt_or]. apply list_min_spec in Em as [_ Hall].
  specialize (Hall (row_time r) (in_map _ _ _ Hr)). lra.
Qed.

Lemma built_sample_origin (sort_values : list sample -> list sample)
  (sort_perm : forall l, Permutation l (sort_values l))
  (sess : session) (ls : list lap_row) (tl : list sample)
  (Hl : laps sess = Some ls) (Hc : collect_session_telemetry sort_values sess = Some tl)
  (s : sample) :
  In s tl <-> exists s0, In s0 (concat (collect_rows ls))
                        /\ s = shift_time (opt_or (list_min (map s_time (concat (collect_rows ls)))) 0) s0.
Proof.
  unfold collect_session_telemetry in Hc. rewrite Hl in Hc.
  destruct ls as [|l0 ls']; [discriminate|].
  destruct (collect_rows (l0 :: ls')) as [|r rs] eqn:Er; [discriminate|].
  injection Hc as <-. split; intro H.
  - apply (Permutation_in _ (Permutation_sym (sort_perm _))) in H.
    unfold normalize_time in H. apply in_map_iff in H as (s0 & <- & Hs0). eauto.
  - destruct H as (s0 & Hs0 & ->). apply (Permutation_in _ (sort_perm _)).
    unfold normalize_time. apply in_map, Hs0.
Qed.

(** X17: when every Distance value of a valid telemetry row is non-negative, every distance of the built timeline is non-negative; the fallback, time since the lap's first row, is never negative. *)
Theorem builder_distances_nonneg (sort_values : list sample -> list sample)
  (sort_perm : forall l, Permutation l (sort_values l))
  (sess : session) (ls : list lap_row) (tl : list sample)
  (Hl : laps sess = Some ls) (Hc : collect_session_telemetry sort_values sess = Some tl)
  (Hd : forall lp tel r, In lp ls -> lap_telemetry lp = Some tel ->
          tel_has_Distance tel = true -> In r (tel_rows tel) -> xy_valid r = true ->
          0 <= row_Distance r) :
  Forall (fun s => 0 <= s_distance s) tl.
Proof.
  apply Forall_forall. intros s Hs.
  apply (built_sample_origin sort_values sort_perm sess ls tl Hl Hc) in Hs as (s0 & Hs0 & ->).
  simpl. apply in_collect_rows in Hs0 as (lp & f & Hlp & Ef & Hsf).
  destruct (lap_frame_samples _ lp f s0 Ef Hsf) as (_ & tel & r & Et & Hr & Hv & H1 & H2).
  destruct (tel_has_Distance tel) eqn:ED.
  - rewrite H1 by reflexivity. exact (Hd lp tel r Hlp Et ED Hr Hv).
  - apply H2. reflexivity.
Qed.

(** X18: a driver appears in the built timeline exactly when one of its laps has telemetry with X/Y columns, converting times and a row with both positions present. *)
Theorem builder_drivers_valid (sort_values : list sample -> list sample)
  (sort_perm : forall l, Permutation l (sort_values l))
  (sess : session) (ls : list lap_row) (tl : list sample)
  (Hl : laps sess = Some ls) (Hc : collect_session_telemetry sort_values sess = Some tl)
  (d : string) :
  In d (drivers_of tl) <-> exists lp, In lp ls /\ lap_Driver lp = d /\ lap_valid lp.
Proof.
  unfold drivers_of. rewrite unique_in. split.
  - intro H. apply in_map_iff in H as (s & <- & Hs).
    apply (built_sample_origin sort_values sort_perm sess ls tl Hl Hc) in Hs as (s0 & Hs0 & ->).
    apply in_collect_rows in Hs0 as (lp & f & Hlp & Ef & Hsf).
    destruct (lap_frame_samples _ lp f s0 Ef Hsf) as [Ed _].
    exists lp. split; [exact Hlp|]. split; [simpl; symmetry; exact Ed|].
    apply (lap_frame_some_iff (lap_Driver lp)). congruence.
  - intros (lp & Hlp & <- & Hv).
    apply (lap_frame_some_iff (lap_Driver lp)) in Hv.
    destruct (lap_frame (lap_Driver lp) lp) as [f|] eqn:Ef; [|congruence].
    destruct f as [|s0 f'] eqn:Ef'; [exfalso; exact (lap_frame_nonempty _ _ _ Ef eq_refl)|].
    rewrite <- Ef' in Ef.
    assert (Hs0 : In s0 f) by (rewrite Ef'; left; reflexivity).
    destruct (lap_frame_samples _ lp f s0 Ef Hs0) as [Ed _].
    apply in_map_iff.
    exists (shift_time (opt_or (list_min (map s_time (concat (collect_rows ls)))) 0) s0).
    split; [simpl; exact Ed|].
    apply (built_sample_origin sort_values sort_perm sess ls tl Hl Hc).
    exists s0. split; [|reflexivity]. exact (collect_rows_in ls lp f s0 Hlp Ef Hs0).
Qed.

(** ** The leader in the in-progress regime *)

Lemma snapshot_index_range (t_arr : list Q) (sim : Q) :
  t_arr <> [] ->
  (0 <= snapshot_index t_arr sim < Z.of_nat (List.length t_arr))%Z.
Proof.
  intro Hne. assert (Hn : (0 < List.length t_arr)%nat) by (destruct t_arr; [congruence|simpl; lia]).
  unfold snapshot_index.
  destruct (Z.of_nat (searchsorted_right t_arr sim) - 1 <? 0)%Z eqn:E1; [lia|].
  apply Z.ltb_ge in E1.
  destruct (Z.of_nat (List.length t_arr) <=? Z.of_nat (searchsorted_right t_arr sim) - 1)%Z eqn:E2;
    [lia|]. apply Z.leb_gt in E2. lia.
Qed.

Lemma driver_stats_from_tl (sort_values : list sample -> list sample)
  (sort_perm : forall l, Permutation l (sort_values l))
  (tl : list sample) (sim : Q) (e : string * stats) :
  In e (driver_stats sort_values tl sim) ->
  exists s, In s tl /\ snd e = stats_of (lap_distance_margin tl) s.
Proof.
  unfold driver_stats. intro H.
  apply filter_some_in, in_map_iff in H as (drv & E & _).
  destruct (snapshot (driver_track sort_values tl drv) (lap_distance_margin tl) sim)
    as [st|] eqn:Es; [|discriminate].
  simpl in E. injection E as <-. simpl.
  unfold snapshot in Es.
  destruct (driver_track sort_values tl drv) as [|s0 tr] eqn:Et; [discriminate|].
  injection Es as <-.
  set (idx := Z.to_nat (snapshot_index (map s_time (s0 :: tr)) sim)).
  assert (Hidx : (idx < List.length (s0 :: tr))%nat).
  { pose proof (snapshot_index_range (map s_time (s0 :: tr)) sim ltac:(discriminate)) as Hr.
    rewrite length_map in Hr. unfold idx. lia. }
  exists (nth idx (s0 :: tr) default_sample). split; [|reflexivity].
  assert (Hin : In (nth idx (s0 :: tr) default_sample) (driver_track sort_values tl drv))
    by (rewrite Et; apply nth_In, Hidx).
  unfold driver_track in Hin.
  apply (Permutation_in _ (Permutation_sym (sort_perm _))), filter_In in Hin as [Hin _].
  exact Hin.
Qed.

Lemma score_lap_dominance (tl : list sample) (a b : sample)
  (Hnn : Forall (fun s => 0 <= s_distance s) tl)
  (Ha : In a tl) (Hb : In b tl) (Hlap : (s_lap b < s_lap a)%Z) :
  progress_score (lap_distance_margin tl) (s_lap b) (s_distance b)
  < progress_score (lap_distance_margin tl) (s_lap a) (s_distance a).
Proof.
  destruct (margin_exceeds tl b Hb) as [Hd Hm].
  rewrite Forall_forall in Hnn. specialize (Hnn a Ha). simpl in Hnn.
  set (m := lap_distance_margin tl) in *. unfold progress_score.
  assert (Hk : inject_Z (s_lap b) + 1 <= inject_Z (s_lap a)).
  { change 1 with (inject_Z 1). rewrite <- inject_Z_plus, <- Zle_Qle. lia. }
  assert (Hmul : (inject_Z (s_lap b) + 1) * m <= inject_Z (s_lap a) * m).
  { apply Qmult_le_compat_r; lra. }
  lra.
Qed.

(** X19: in the in-progress regime, with non-negative distances, the leader is on the highest lap among the ranked drivers. *)
Theorem leader_on_highest_lap (sort_values : list sample -> list sample)
  (sort_perm : forall l, Permutation l (sort_values l))
  (tl : list sample) (total_laps : Z) (positions : list (string * Q)) (sim : Q)
  (Hnn : Forall (fun s => 0 <= s_distance s) tl)
  (Hprog : fr_finished (leaderboard sort_values tl total_laps positions sim) = false) :
  let ranked := fr_ranked (leaderboard sort_values tl total_laps positions sim) in
  forall e, In e ranked -> (st_lap (snd e) <= snd (leader_of ranked))%Z.
Proof.
  intros ranked e He.
  destruct (leaderboard_fields sort_values tl total_laps positions sim) as [Hf [Hr _]].
  set (st := driver_stats sort_values tl sim) in *.
  assert (Hrk : ranked = progress_order st).
  { unfold ranked. rewrite Hr. unfold standings. rewrite <- Hf, Hprog. reflexivity. }
  destruct (progress_order_props st) as [Hp [Hs _]].
  rewrite <- Hrk in Hp, Hs.
  destruct ranked as [|h t] eqn:Erk; [destruct He|].
  assert (Hlead : snd (leader_of (h :: t)) = st_lap (snd h)) by (destruct h; reflexivity).
  rewrite Hlead.
  assert (Hge : st_progress (snd e) <= st_progress (snd h)).
  { destruct He as [<-|He]; [apply Qle_refl|].
    apply Sorted_StronglySorted in Hs.
    - apply StronglySorted_inv in Hs as [_ Hall]. rewrite Forall_forall in Hall.
      exact (Hall e He).
    - intros x y z H1 H2. lra. }
  assert (Hh : In h st) by (apply (Permutation_in _ (Permutation_sym Hp)); left; reflexivity).
  assert (He' : In e st) by (apply (Permutation_in _ (Permutation_sym Hp)); exact He).
  destruct (driver_stats_from_tl sort_values sort_perm tl sim h Hh) as (a & Ha & Ea).
  destruct (driver_stats_from_tl sort_values sort_perm tl sim e He') as (b & Hb & Eb).
  rewrite Ea, Eb in *. simpl in *.
  destruct (Z.le_gt_cases (s_lap b) (s_lap a)) as [H|H]; [exact H|].
  exfalso. pose proof (score_lap_dominance tl b a Hnn Hb Ha H). lra.
Qed.

Lemma current_status_rightmost_witness :
  sorted_q [0; 5]
  /\ current_status [0; 5] ["1"; "4"]%string 6 = nth 1 ["1"; "4"]%string "1"%string.
Proof.
  assert (Hs : sorted_q [0; 5]).
  { intros i j H. simpl in H.
    destruct i as [|[|i]]; destruct j as [|[|j]]; simpl; try lia; try lra. }
  split; [exact Hs|].
  destruct (current_status_rightmost [0; 5] ["1"; "4"]%string 6 Hs) as [_ H].
  apply H; simpl.
  - lia.
  - lra.
  - intros j Hj. lia.
Defined.

Lemma last_message_rightmost_witness :
  sorted_q [0; 10]
  /\ last_message [0; 10] ["Track clear"; "Safety car deployed in sector two of the circuit"]%string 3
     = truncate_message (nth 0 ["Track clear"; "Safety car deployed in sector two of the circuit"]%string ""%string).
Proof.
  assert (Hs : sorted_q [0; 10]).
  { intros i j H. simpl in H.
    destruct i as [|[|i]]; destruct j as [|[|j]]; simpl; try lia; try lra. }
  split; [exact Hs|].
  destruct (last_message_rightmost [0; 10]
              ["Track clear"; "Safety car deployed in sector two of the circuit"]%string 3 Hs)
    as [_ H].
  apply H; simpl.
  - lia.
  - lra.
  - intros j Hj. assert (j = 1%nat) by lia. subst j. simpl. lra.
Defined.

Lemma current_lap_monotone_witness :
  1 <= 6 /\ Forall (fun s => (0 <= s_lap s)%Z) two_sample_track
  /\ (current_lap two_sample_track 1 <= current_lap two_sample_track 6)%Z.
Proof.
  assert (H12 : 1 <= 6) by lra.
  assert (Hl : Forall (fun s => (0 <= s_lap s)%Z) two_sample_track)
    by (repeat constructor; simpl; lia).
  split; [exact H12|]. split; [exact Hl|].
  exact (current_lap_monotone two_sample_track 1 6 H12 Hl).
Defined.

Lemma finished_regime_persists_witness :
  0 <= 4 /\ Forall (fun s => (0 <= s_lap s)%Z) two_sample_track
  /\ fr_finished (leaderboard stable_sort_values two_sample_track 1 [] 0) = true
  /\ fr_finished (leaderboard stable_sort_values two_sample_track 1 [] 4) = true.
Proof.
  assert (H12 : 0 <= 4) by lra.
  assert (Hl : Forall (fun s => (0 <= s_lap s)%Z) two_sample_track)
    by (repeat constructor; simpl; lia).
  assert (Hf : fr_finished (leaderboard stable_sort_values two_sample_track 1 [] 0) = true)
    by (vm_compute; reflexivity).
  split; [exact H12|]. split; [exact Hl|]. split; [exact Hf|].
  exact (finished_regime_persists stable_sort_values two_sample_track 1 [] 0 4 H12 Hl Hf).
Defined.

Lemma dnf_drivers_empty_witness :
  (forall l, Permutation l (stable_sort_values l))
  /\ dnf_drivers stable_sort_values three_driver_timeline 0 = [].
Proof.
  split; [exact (fun l => stable_sort_perm s_time l)|].
  exact (dnf_drivers_empty stable_sort_values (fun l => stable_sort_perm s_time l)
           three_driver_timeline 0).
Defined.

Lemma prestart_distances (lp : lap_row) (tel : telemetry) (r : tel_row) :
  In lp prestart_laps -> lap_telemetry lp = Some tel ->
  tel_has_Distance tel = true -> In r (tel_rows tel) -> xy_valid r = true ->
  0 <= row_Distance r.
Proof.
  intros Hlp Et _ Hr _.
  destruct Hlp as [<-|[<-|[]]]; injection Et as <-; destruct Hr as [<-|[]]; simpl; lra.
Qed.

Lemma builder_distances_nonneg_witness :
  laps prestart_session = Some prestart_laps
  /\ collect_session_telemetry stable_sort_values prestart_session
     = Some (stable_sort_values (normalize_time (concat (collect_rows prestart_laps))))
  /\ Forall (fun s => 0 <= s_distance s)
       (stable_sort_values (normalize_time (concat (collect_rows prestart_laps)))).
Proof.
  assert (Hl : laps prestart_session = Some prestart_laps) by reflexivity.
  assert (Hc : collect_session_telemetry stable_sort_values prestart_session
               = Some (stable_sort_values (normalize_time (concat (collect_rows prestart_laps)))))
    by reflexivity.
  split; [exact Hl|]. split; [exact Hc|].
  exact (builder_distances_nonneg stable_sort_values (fun l => stable_sort_perm s_time l)
           prestart_session prestart_laps _ Hl Hc prestart_distances).
Defined.

Lemma builder_drivers_valid_witness :
  laps prestart_session = Some prestart_laps
  /\ collect_session_telemetry stable_sort_values prestart_session
     = Some (stable_sort_values (normalize_time (concat (collect_rows prestart_laps))))
  /\ (In "B"%string (drivers_of (stable_sort_values (normalize_time (concat (collect_rows prestart_laps)))))
      <-> exists lp, In lp prestart_laps /\ lap_Driver lp = "B"%string /\ lap_valid lp).
Proof.
  assert (Hl : laps prestart_session = Some prestart_laps) by reflexivity.
  assert (Hc : collect_session_telemetry stable_sort_values prestart_session
               = Some (stable_sort_values (normalize_time (concat (collect_rows prestart_laps)))))
    by reflexivity.
  split; [exact Hl|]. split; [exact Hc|].
  exact (builder_drivers_valid stable_sort_values (fun l => stable_sort_perm s_time l)
           prestart_session prestart_laps _ Hl Hc "B"%string).
Defined.

Lemma leader_on_highest_lap_witness :
  Forall (fun s => 0 <= s_distance s) three_driver_timeline
  /\ fr_finished (leaderboard stable_sort_values three_driver_timeline 5 [] 1) = false
  /\ forall e, In e (fr_ranked (leaderboard stable_sort_values three_driver_timeline 5 [] 1)) ->
       (st_lap (snd e)
        <= snd (leader_of (fr_ranked (leaderboard stable_sort_values three_driver_timeline 5 [] 1))))%Z.
Proof.
  assert (Hnn : Forall (fun s => 0 <= s_distance s) three_driver_timeline)
    by (repeat constructor; simpl; lra).
  assert (Hprog : fr_finished (leaderboard stable_sort_values three_driver_timeline 5 [] 1) = false)
    by (vm_compute; reflexivity).
  split; [exact Hnn|]. split; [exact Hprog|].
  exact (leader_on_highest_lap stable_sort_values (fun l => stable_sort_perm s_time l)
           three_driver_timeline 5 [] 1 Hnn Hprog).
Defined.

Lemma fmt_time_negative_witness :
  -1 < 0 /\ fmt_time (-1) = "0:00.000"%string.
Proof.
  assert (H : -1 < 0) by (vm_compute; reflexivity).
  split; [exact H|]. exact (fmt_time_negative (-1) H).
Defined.
